(** * ArtGallery: a shallow embedding of the gallery contract

    The contract [ArtGallery] (Solidity ^0.8.20) is embedded as a state
    machine over its storage.  Every public function is a computation in a
    small monad [M] that threads the storage, can revert, and records the
    externally visible effects of the call (storage writes, ether sent,
    events emitted) in the order in which the function body performs them.

    Integers of type [uint256] are modelled in [N]; checked arithmetic
    reverts with [Panic 0x11] outside [0, 2^256), and the one unchecked
    operation (the counter increment) wraps around.  Addresses are numbers,
    [address(0)] being [0].  Mappings are finite maps read with the
    Solidity default for absent keys.  A [transfer] forwards too little
    gas for the recipient to call back, so a payment is an atomic step
    that the recipient accepts or rejects. *)

From Stdlib Require Import NArith List String Bool Lia Sorted.
From stdpp Require Import base option gmap strings list.

Local Open Scope string_scope.
Local Open Scope list_scope.
Local Open Scope N_scope.

(** ** Data model *)

Abbreviation address := N (only parsing).

Record Artwork := mkArtwork {
  title : string;
  artist : address;
  price : N;
  forSale : bool;
  totalRatings : N;
  ratingSum : N;
  galleryId : string;
  royaltyPercentage : N;
  createdAt : N
}.

Record Gallery := mkGallery {
  name : string;
  curator : address;
  artworkIds : list N;
  isActive : bool;
  description : string;
  gCreatedAt : N
}.

Record Review := mkReview {
  reviewer : address;
  comment : string;
  rating : N;
  timestamp : N
}.

(** The storage of the contract.  The first block is declared by
    [ArtGallery] itself; the second block is the part of the inherited
    OpenZeppelin contracts that the functions of [ArtGallery] read or
    write: the ERC-721 owner table and token URIs, the [Ownable]
    administrator and the [ReentrancyGuard] flag ([true] while a guarded
    function runs).  [balance] is the ether held by the contract. *)
Record State := mkState {
  _tokenIds : N;
  _galleryIds : N;
  platformFee : N;
  artworks : gmap N Artwork;
  galleries : gmap string Gallery;
  reviews : gmap N (list Review);
  hasRated : gset (N * N);
  userArtworks : gmap N (list N);
  userGalleries : gmap N (list string);
  _owners : gmap N N;
  _tokenURIs : gmap N string;
  _owner : address;
  _status : bool;
  balance : N
}.

(** Solidity default values for absent mapping keys. *)
Definition zeroArtwork : Artwork := mkArtwork "" 0 0 false 0 0 "" 0 0.
Definition zeroGallery : Gallery := mkGallery "" 0 [] false "" 0.

Definition artwork_at (st : State) (tokenId : N) : Artwork :=
  default zeroArtwork (artworks st !! tokenId).
Definition gallery_at (st : State) (key : string) : Gallery :=
  default zeroGallery (galleries st !! key).
Definition reviews_at (st : State) (tokenId : N) : list Review :=
  default [] (reviews st !! tokenId).
Definition hasRated_at (st : State) (tokenId : N) (who : address) : bool :=
  bool_decide ((tokenId, who) ∈ hasRated st).
Definition userArtworks_at (st : State) (who : address) : list N :=
  default [] (userArtworks st !! who).
Definition userGalleries_at (st : State) (who : address) : list string :=
  default [] (userGalleries st !! who).

(** State of the contract right after deployment by [deployer]. *)
Definition deployed (deployer : address) : State :=
  mkState 0 0 25 ∅ ∅ ∅ ∅ ∅ ∅ ∅ ∅ deployer false 0.

(** Field updates. *)
Definition set_tokenIds (v : N) (st : State) : State :=
  mkState v (_galleryIds st) (platformFee st) (artworks st) (galleries st)
    (reviews st) (hasRated st) (userArtworks st) (userGalleries st)
    (_owners st) (_tokenURIs st) (_owner st) (_status st) (balance st).
Definition set_platformFee (v : N) (st : State) : State :=
  mkState (_tokenIds st) (_galleryIds st) v (artworks st) (galleries st)
    (reviews st) (hasRated st) (userArtworks st) (userGalleries st)
    (_owners st) (_tokenURIs st) (_owner st) (_status st) (balance st).
Definition set_artworks (v : gmap N Artwork) (st : State) : State :=
  mkState (_tokenIds st) (_galleryIds st) (platformFee st) v (galleries st)
    (reviews st) (hasRated st) (userArtworks st) (userGalleries st)
    (_owners st) (_tokenURIs st) (_owner st) (_status st) (balance st).
Definition set_galleries (v : gmap string Gallery) (st : State) : State :=
  mkState (_tokenIds st) (_galleryIds st) (platformFee st) (artworks st) v
    (reviews st) (hasRated st) (userArtworks st) (userGalleries st)
    (_owners st) (_tokenURIs st) (_owner st) (_status st) (balance st).
Definition set_reviews (v : gmap N (list Review)) (st : State) : State :=
  mkState (_tokenIds st) (_galleryIds st) (platformFee st) (artworks st)
    (galleries st) v (hasRated st) (userArtworks st) (userGalleries st)
    (_owners st) (_tokenURIs st) (_owner st) (_status st) (balance st).
Definition set_hasRated (v : gset (N * N)) (st : State) : State :=
  mkState (_tokenIds st) (_galleryIds st) (platformFee st) (artworks st)
    (galleries st) (reviews st) v (userArtworks st) (userGalleries st)
    (_owners st) (_tokenURIs st) (_owner st) (_status st) (balance st).
Definition set_userArtworks (v : gmap N (list N)) (st : State) : State :=
  mkState (_tokenIds st) (_galleryIds st) (platformFee st) (artworks st)
    (galleries st) (reviews st) (hasRated st) v (userGalleries st)
    (_owners st) (_tokenURIs st) (_owner st) (_status st) (balance st).
Definition set_userGalleries (v : gmap N (list string)) (st : State) : State :=
  mkState (_tokenIds st) (_galleryIds st) (platformFee st) (artworks st)
    (galleries st) (reviews st) (hasRated st) (userArtworks st) v
    (_owners st) (_tokenURIs st) (_owner st) (_status st) (balance st).
Definition set_owners (v : gmap N N) (st : State) : State :=
  mkState (_tokenIds st) (_galleryIds st) (platformFee st) (artworks st)
    (galleries st) (reviews st) (hasRated st) (userArtworks st)
    (userGalleries st) v (_tokenURIs st) (_owner st) (_status st) (balance st).
Definition set_tokenURIs (v : gmap N string) (st : State) : State :=
  mkState (_tokenIds st) (_galleryIds st) (platformFee st) (artworks st)
    (galleries st) (reviews st) (hasRated st) (userArtworks st)
    (userGalleries st) (_owners st) v (_owner st) (_status st) (balance st).
Definition set_status (v : bool) (st : State) : State :=
  mkState (_tokenIds st) (_galleryIds st) (platformFee st) (artworks st)
    (galleries st) (reviews st) (hasRated st) (userArtworks st)
    (userGalleries st) (_owners st) (_tokenURIs st) (_owner st) v (balance st).
Definition set_balance (v : N) (st : State) : State :=
  mkState (_tokenIds st) (_galleryIds st) (platformFee st) (artworks st)
    (galleries st) (reviews st) (hasRated st) (userArtworks st)
    (userGalleries st) (_owners st) (_tokenURIs st) (_owner st) (_status st) v.

(** Assignments to single fields of a stored artwork. *)
Definition with_forSale (b : bool) (a : Artwork) : Artwork :=
  mkArtwork (title a) (artist a) (price a) b (totalRatings a) (ratingSum a)
    (galleryId a) (royaltyPercentage a) (createdAt a).
Definition with_totalRatings (n : N) (a : Artwork) : Artwork :=
  mkArtwork (title a) (artist a) (price a) (forSale a) n (ratingSum a)
    (galleryId a) (royaltyPercentage a) (createdAt a).
Definition with_ratingSum (n : N) (a : Artwork) : Artwork :=
  mkArtwork (title a) (artist a) (price a) (forSale a) (totalRatings a) n
    (galleryId a) (royaltyPercentage a) (createdAt a).

Definition update_artwork (tokenId : N) (f : Artwork -> Artwork)
    (st : State) : State :=
  set_artworks (<[tokenId := f (artwork_at st tokenId)]> (artworks st)) st.

(** ** Effects of a call *)

Inductive Event :=
| ArtworkCreated (tokenId : N) (title : string) (artist : address) (price : N)
| ArtworkSold (tokenId : N) (from to : address) (price : N)
| ReviewAdded (tokenId : N) (reviewer : address) (comment : string) (rating : N)
| GalleryCreated (galleryId name : string) (curator : address)
| PriceUpdated (tokenId newPrice : N)
| RoyaltyPaid (tokenId : N) (artist : address) (amount : N)
| Transfer (from to : address) (tokenId : N).

(** The storage locations a function assigns to. *)
Inductive Slot :=
| slot_status
| slot_tokenIds
| slot_platformFee
| slot_artwork (tokenId : N)
| slot_gallery (key : string)
| slot_reviews (tokenId : N)
| slot_hasRated (tokenId : N) (who : address)
| slot_userArtworks (who : address)
| slot_userGalleries (who : address)
| slot_owner (tokenId : N)
| slot_tokenURI (tokenId : N).

Inductive Effect :=
| Wrote (s : Slot)
| Sent (to : address) (amount : N)
| Emitted (e : Event).

(** ** The execution monad *)

Inductive failure :=
| Error (reason : string)
| Panic (code : N)
| TransferFailed.

Inductive result (A : Type) :=
| Ok (a : A)
| Fail (f : failure).
Arguments Ok {A} a.
Arguments Fail {A} f.

Definition M (A : Type) : Type := State -> result (A * State * list Effect).

Definition ret {A} (a : A) : M A := fun st => Ok (a, st, []).

Definition bind {A B} (m : M A) (k : A -> M B) : M B :=
  fun st =>
    match m st with
    | Ok (a, st1, t1) =>
        match k a st1 with
        | Ok (b, st2, t2) => Ok (b, st2, t1 ++ t2)
        | Fail f => Fail f
        end
    | Fail f => Fail f
    end.

Notation "x <- c1 ;; c2" := (bind c1 (fun x => c2))
  (at level 100, c1 at next level, right associativity).
Notation "c1 ;; c2" := (bind c1 (fun _ => c2))
  (at level 100, right associativity).

Definition revert {A} (f : failure) : M A := fun _ => Fail f.

Definition require (cond : bool) (reason : string) : M unit :=
  if cond then ret tt else revert (Error reason).

Definition read {A} (f : State -> A) : M A := fun st => Ok (f st, st, []).

Definition write (s : Slot) (f : State -> State) : M unit :=
  fun st => Ok (tt, f st, [Wrote s]).

Definition emit (e : Event) : M unit := fun st => Ok (tt, st, [Emitted e]).

(** Checked [uint256] arithmetic of Solidity 0.8. *)
Definition uint256_max : N := 2 ^ 256 - 1.

Definition checked_add (a b : N) : M N :=
  if a + b <=? uint256_max then ret (a + b) else revert (Panic 17).
Definition checked_sub (a b : N) : M N :=
  if b <=? a then ret (a - b) else revert (Panic 17).
Definition checked_mul (a b : N) : M N :=
  if a * b <=? uint256_max then ret (a * b) else revert (Panic 17).

(** ** Call context *)

(** What a call sees of the outside world: the caller, the block time,
    and which recipients take a plain ether transfer (a [transfer] to a
    recipient that rejects it reverts the call). *)
Record Env := mkEnv {
  msg_sender : address;
  block_timestamp : N;
  accepts : address -> bool
}.

(** ** Inherited base contracts

    The contract imports OpenZeppelin's [Counters], [ERC721],
    [ERC721URIStorage], [Ownable] and [ReentrancyGuard] (lines 4 to 8);
    their sources are not in the source tree.  The members that
    [ArtGallery] calls are given here the behaviour that the library
    documents.  Approvals, the number of tokens per holder and the
    hand-over of the administrator role are left out. *)

(** Modelled from the spec: [Counters.increment], the step of the spec's
    monotonic id counter; the library adds 1 without an overflow check. *)
Definition increment (c : N) : N := (c + 1) mod 2 ^ 256.

(** Modelled from the spec: the owner table of [ERC721], the spec's
    current owner of an asset; an id without an owner reads as
    [address(0)]. *)
Definition _ownerOf (st : State) (tokenId : N) : address :=
  default 0 (_owners st !! tokenId).

(** Modelled from the spec: [ERC721._exists], the spec's test for a known
    id: the token has an owner. *)
Definition _exists (st : State) (tokenId : N) : bool :=
  negb (_ownerOf st tokenId =? 0).

(** Modelled from the spec: [ERC721.ownerOf], which reverts on an id
    without an owner. *)
Definition ownerOf (tokenId : N) : M address :=
  o <- read (fun st => _ownerOf st tokenId) ;;
  require (negb (o =? 0)) "ERC721: invalid token ID" ;;
  ret o.

(** Modelled from the spec: [ERC721._mint], which gives a fresh id its
    first owner. *)
Definition _mint (to tokenId : N) : M unit :=
  require (negb (to =? 0)) "ERC721: mint to the zero address" ;;
  ex <- read (fun st => _exists st tokenId) ;;
  require (negb ex) "ERC721: token already minted" ;;
  write (slot_owner tokenId)
    (fun st => set_owners (<[tokenId := to]> (_owners st)) st) ;;
  emit (Transfer 0 to tokenId).

(** Modelled from the spec: [ERC721._transfer], the change of owner of a
    purchase. *)
Definition _transfer (from to tokenId : N) : M unit :=
  o <- ownerOf tokenId ;;
  require (o =? from) "ERC721: transfer from incorrect owner" ;;
  require (negb (to =? 0)) "ERC721: transfer to the zero address" ;;
  write (slot_owner tokenId)
    (fun st => set_owners (<[tokenId := to]> (_owners st)) st) ;;
  emit (Transfer from to tokenId).

(** Modelled from the spec: [ERC721URIStorage._setTokenURI], which stores
    the spec's opaque content reference of an asset. *)
Definition _setTokenURI (tokenId : N) (uri : string) : M unit :=
  ex <- read (fun st => _exists st tokenId) ;;
  require ex "ERC721URIStorage: URI set of nonexistent token" ;;
  write (slot_tokenURI tokenId)
    (fun st => set_tokenURIs (<[tokenId := uri]> (_tokenURIs st)) st).

(** Modelled from the spec: the [nonReentrant] modifier of
    [ReentrancyGuard], the spec's reentrancy guard: a flag that is set
    while the body runs and refuses entry while set. *)
Definition nonReentrant {A} (body : M A) : M A :=
  entered <- read _status ;;
  require (negb entered) "ReentrancyGuard: reentrant call" ;;
  write slot_status (set_status true) ;;
  r <- body ;;
  write slot_status (set_status false) ;;
  ret r.

(** ** The functions of [ArtGallery] *)

Section Contract.

Variable env : Env.

(** [payable(to).transfer(amount)]: reverts when the contract holds less
    than [amount] or the recipient does not accept the payment. *)
Definition transfer (to : address) (amount : N) : M unit :=
  fun st =>
    if (amount <=? balance st) && accepts env to
    then Ok (tt, set_balance (balance st - amount) st, [Sent to amount])
    else Fail TransferFailed.

(** A payable function is entered with [msg.value] already credited. *)
Definition receive_value (value : N) : M unit :=
  fun st => Ok (tt, set_balance (balance st + value) st, []).

(** Modelled from the spec: the [onlyOwner] modifier of [Ownable], the
    spec's administrator check. *)
Definition onlyOwner {A} (body : M A) : M A :=
  admin <- read _owner ;;
  require (admin =? msg_sender env) "Ownable: caller is not the owner" ;;
  body.

Definition createArtwork (title tokenURI : string) (price : N)
    (galleryId : string) (royaltyPercentage : N) : M N :=
  nonReentrant (
    require (negb (String.length title =? 0)%nat) "Title cannot be empty" ;;
    require (0 <? price) "Price must be greater than 0" ;;
    g <- read (fun st => gallery_at st galleryId) ;;
    require (isActive g) "Gallery does not exist" ;;
    require (royaltyPercentage <=? 100)
      "Royalty percentage cannot exceed 100" ;;
    write slot_tokenIds (fun st => set_tokenIds (increment (_tokenIds st)) st) ;;
    newTokenId <- read _tokenIds ;;
    _mint (msg_sender env) newTokenId ;;
    _setTokenURI newTokenId tokenURI ;;
    write (slot_artwork newTokenId) (fun st =>
      set_artworks
        (<[newTokenId :=
             mkArtwork title (msg_sender env) price true 0 0 galleryId
               royaltyPercentage (block_timestamp env)]> (artworks st)) st) ;;
    write (slot_gallery galleryId) (fun st =>
      let g := gallery_at st galleryId in
      set_galleries
        (<[galleryId :=
             mkGallery (name g) (curator g) (artworkIds g ++ [newTokenId])
               (isActive g) (description g) (gCreatedAt g)]> (galleries st))
        st) ;;
    write (slot_userArtworks (msg_sender env)) (fun st =>
      set_userArtworks
        (<[msg_sender env :=
             userArtworks_at st (msg_sender env) ++ [newTokenId]]>
           (userArtworks st)) st) ;;
    emit (ArtworkCreated newTokenId title (msg_sender env) price) ;;
    ret newTokenId).

(** [msg.value] is the explicit argument [value]. *)
Definition purchaseArtwork (tokenId value : N) : M unit :=
  receive_value value ;;
  nonReentrant (
    ex <- read (fun st => _exists st tokenId) ;;
    require ex "Artwork does not exist" ;;
    artwork <- read (fun st => artwork_at st tokenId) ;;
    require (forSale artwork) "Artwork is not for sale" ;;
    require (price artwork <=? value) "Insufficient payment" ;;
    seller <- ownerOf tokenId ;;
    fee <- read platformFee ;;
    scaledFee <- checked_mul value fee ;;
    let platformFeeAmount := scaledFee / 1000 in
    royaltyAmount <-
      (if negb (seller =? artist artwork) then
         scaled <- checked_mul value (royaltyPercentage artwork) ;;
         let royaltyAmount := scaled / 100 in
         transfer (artist artwork) royaltyAmount ;;
         emit (RoyaltyPaid tokenId (artist artwork) royaltyAmount) ;;
         ret royaltyAmount
       else ret 0) ;;
    _transfer seller (msg_sender env) tokenId ;;
    admin <- read _owner ;;
    transfer admin platformFeeAmount ;;
    afterFee <- checked_sub value platformFeeAmount ;;
    proceeds <- checked_sub afterFee royaltyAmount ;;
    transfer seller proceeds ;;
    write (slot_artwork tokenId) (update_artwork tokenId (with_forSale false)) ;;
    emit (ArtworkSold tokenId seller (msg_sender env) value)).

Definition createGallery (galleryId name description : string) : M unit :=
  require (negb (String.length galleryId =? 0)%nat)
    "Gallery ID cannot be empty" ;;
  require (negb (String.length name =? 0)%nat)
    "Gallery name cannot be empty" ;;
  g <- read (fun st => gallery_at st galleryId) ;;
  require (negb (isActive g)) "Gallery ID already exists" ;;
  write (slot_gallery galleryId) (fun st =>
    set_galleries
      (<[galleryId :=
           mkGallery name (msg_sender env) [] true description
             (block_timestamp env)]> (galleries st)) st) ;;
  write (slot_userGalleries (msg_sender env)) (fun st =>
    set_userGalleries
      (<[msg_sender env :=
           userGalleries_at st (msg_sender env) ++ [galleryId]]>
         (userGalleries st)) st) ;;
  emit (GalleryCreated galleryId name (msg_sender env)).

Definition addReview (tokenId : N) (comment : string) (rating : N) : M unit :=
  ex <- read (fun st => _exists st tokenId) ;;
  require ex "Artwork does not exist" ;;
  require ((1 <=? rating) && (rating <=? 5))
    "Rating must be between 1 and 5" ;;
  rated <- read (fun st => hasRated_at st tokenId (msg_sender env)) ;;
  require (negb rated) "User has already rated this artwork" ;;
  write (slot_reviews tokenId) (fun st =>
    set_reviews
      (<[tokenId :=
           reviews_at st tokenId ++
             [mkReview (msg_sender env) comment rating (block_timestamp env)]]>
         (reviews st)) st) ;;
  artwork <- read (fun st => artwork_at st tokenId) ;;
  count <- checked_add (totalRatings artwork) 1 ;;
  write (slot_artwork tokenId) (update_artwork tokenId (with_totalRatings count)) ;;
  artwork <- read (fun st => artwork_at st tokenId) ;;
  sum <- checked_add (ratingSum artwork) rating ;;
  write (slot_artwork tokenId) (update_artwork tokenId (with_ratingSum sum)) ;;
  write (slot_hasRated tokenId (msg_sender env)) (fun st =>
    set_hasRated ({[ (tokenId, msg_sender env) ]} ∪ hasRated st) st) ;;
  emit (ReviewAdded tokenId (msg_sender env) comment rating).

(** The tuple returned by [getArtwork]. *)
Record ArtworkView := mkView {
  v_title : string;
  v_artist : address;
  v_price : N;
  v_forSale : bool;
  v_avgRating : N;
  v_galleryId : string;
  v_royaltyPercentage : N
}.

Definition getArtwork (tokenId : N) : M ArtworkView :=
  ex <- read (fun st => _exists st tokenId) ;;
  require ex "Artwork does not exist" ;;
  artwork <- read (fun st => artwork_at st tokenId) ;;
  ret (mkView (title artwork) (artist artwork) (price artwork)
         (forSale artwork)
         (if 0 <? totalRatings artwork
          then ratingSum artwork / totalRatings artwork else 0)
         (galleryId artwork) (royaltyPercentage artwork)).

Definition getGalleryArtworks (galleryId : string) : M (list N) :=
  g <- read (fun st => gallery_at st galleryId) ;;
  require (isActive g) "Gallery does not exist" ;;
  ret (artworkIds g).

Definition getUserArtworks (user : address) : M (list N) :=
  read (fun st => userArtworks_at st user).

Definition getUserGalleries (user : address) : M (list string) :=
  read (fun st => userGalleries_at st user).

Definition updatePlatformFee (newFee : N) : M unit :=
  onlyOwner (
    require (newFee <=? 100) "Fee cannot exceed 10%" ;;
    write slot_platformFee (set_platformFee newFee)).

(** Modelled from the spec: the public [transferFrom] that the contract
    inherits from [ERC721], for a caller that holds the token (approvals
    are left out).  It moves a token without a sale and leaves the listing
    as it is. *)
Definition transferFrom (from to tokenId : N) : M unit :=
  holder <- ownerOf tokenId ;;
  require (msg_sender env =? holder)
    "ERC721: caller is not token owner or approved" ;;
  _transfer from to tokenId.

End Contract.

(** ** Transactions *)

Inductive Call :=
| CreateArtwork (title tokenURI : string) (price : N) (galleryId : string)
    (royaltyPercentage : N)
| PurchaseArtwork (tokenId value : N)
| CreateGallery (galleryId name description : string)
| AddReview (tokenId : N) (comment : string) (rating : N)
| GetArtwork (tokenId : N)
| GetGalleryArtworks (galleryId : string)
| GetUserArtworks (user : address)
| GetUserGalleries (user : address)
| UpdatePlatformFee (newFee : N)
| TransferFrom (from to tokenId : N).

Inductive RetVal :=
| RNone
| RTokenId (tokenId : N)
| RArtwork (v : ArtworkView)
| RTokenIds (ids : list N)
| RKeys (keys : list string).

Definition exec (env : Env) (c : Call) : M RetVal :=
  match c with
  | CreateArtwork t u p g r =>
      id <- createArtwork env t u p g r ;; ret (RTokenId id)
  | PurchaseArtwork id v => purchaseArtwork env id v ;; ret RNone
  | CreateGallery g n d => createGallery env g n d ;; ret RNone
  | AddReview id c r => addReview env id c r ;; ret RNone
  | GetArtwork id => v <- getArtwork id ;; ret (RArtwork v)
  | GetGalleryArtworks g => l <- getGalleryArtworks g ;; ret (RTokenIds l)
  | GetUserArtworks u => l <- getUserArtworks u ;; ret (RTokenIds l)
  | GetUserGalleries u => l <- getUserGalleries u ;; ret (RKeys l)
  | UpdatePlatformFee f => updatePlatformFee env f ;; ret RNone
  | TransferFrom f t id => transferFrom env f t id ;; ret RNone
  end.

(** A transaction commits the storage of a call that returns and keeps
    the storage it started from when the call reverts. *)
Definition transact (env : Env) (c : Call) (st : State)
    : State * result (RetVal * list Effect) :=
  match exec env c st with
  | Ok (r, st', tr) => (st', Ok (r, tr))
  | Fail f => (st, Fail f)
  end.

(** A sequence of transactions, with the outcome of each. *)
Fixpoint transact_all (txs : list (Env * Call)) (st : State)
    : State * list (result (RetVal * list Effect)) :=
  match txs with
  | [] => (st, [])
  | (env, c) :: rest =>
      let '(st1, r) := transact env c st in
      let '(st2, rs) := transact_all rest st1 in
      (st2, r :: rs)
  end.

(** ** Observations on the effects of a call *)

(** The effects of a sale, in the order [purchaseArtwork] performs them. *)
Definition sale_trace (tokenId seller buyer creator admin value
    platformFeeAmount royaltyAmount : N) : list Effect :=
  [Wrote slot_status] ++
  (if seller =? creator then []
   else [Sent creator royaltyAmount;
         Emitted (RoyaltyPaid tokenId creator royaltyAmount)]) ++
  [Wrote (slot_owner tokenId);
   Emitted (Transfer seller buyer tokenId);
   Sent admin platformFeeAmount;
   Sent seller (value - platformFeeAmount - royaltyAmount);
   Wrote (slot_artwork tokenId);
   Emitted (ArtworkSold tokenId seller buyer value);
   Wrote slot_status].

(** The ether payments of a trace, in order. *)
Definition payments (tr : list Effect) : list (address * N) :=
  flat_map (fun e => match e with Sent to amount => [(to, amount)] | _ => [] end)
    tr.

Definition is_sent (e : Effect) : bool :=
  match e with Sent _ _ => true | _ => false end.

(** A write to the registry proper; the reentrancy flag is bookkeeping of
    the guard. *)
Definition is_mutation (e : Effect) : bool :=
  match e with
  | Wrote slot_status => false
  | Wrote _ => true
  | _ => false
  end.

Definition is_sold (e : Effect) : bool :=
  match e with Emitted (ArtworkSold _ _ _ _) => true | _ => false end.

Definition is_royalty_paid (e : Effect) : bool :=
  match e with Emitted (RoyaltyPaid _ _ _) => true | _ => false end.

Definition is_price_updated (e : Effect) : bool :=
  match e with Emitted (PriceUpdated _ _) => true | _ => false end.

(** The part of a trace that starts at its first payment. *)
Fixpoint from_first_send (tr : list Effect) : list Effect :=
  match tr with
  | [] => []
  | e :: rest => if is_sent e then e :: rest else from_first_send rest
  end.

(** Checks-effects-interactions: once the first payment has started,
    nothing is written to the registry and the sale event is already out. *)
Definition effects_before_interactions (tr : list Effect) : bool :=
  forallb (fun e => negb (is_mutation e) && negb (is_sold e))
    (from_first_send tr).

(** The token ids returned by the creations among a list of outcomes. *)
Definition created_ids (outs : list (result (RetVal * list Effect)))
    : list N :=
  flat_map (fun o => match o with Ok (RTokenId id, _) => [id] | _ => [] end)
    outs.

(** The [len] consecutive numbers that start at [n]. *)
Fixpoint count_from (n : N) (len : nat) : list N :=
  match len with
  | O => []
  | S len' => n :: count_from (n + 1) len'
  end.

(** All effects of a list of outcomes. *)
Definition all_effects (outs : list (result (RetVal * list Effect)))
    : list Effect :=
  flat_map (fun o => match o with Ok (_, tr) => tr | Fail _ => [] end) outs.

(** Every stored artwork belongs to a minted token. *)
Definition minted (st : State) : Prop :=
  map_Forall (fun id (_ : Artwork) => _exists st id = true) (artworks st).

(** The states the contract can be in between transactions. *)
Inductive reachable : State -> Prop :=
| reachable_deployed deployer : reachable (deployed deployer)
| reachable_transact env c st :
    reachable st -> reachable (fst (transact env c st)).

Fixpoint sum_ratings (l : list Review) : N :=
  match l with
  | [] => 0
  | r :: l' => rating r + sum_ratings l'
  end.

(** The two rating fields of an artwork summarise its reviews. *)
Definition ratings_consistent (st : State) : Prop :=
  forall tok,
    totalRatings (artwork_at st tok) = N.of_nat (length (reviews_at st tok)) /\
    ratingSum (artwork_at st tok) = sum_ratings (reviews_at st tok).

(** The error kinds of the registry, as the contract words them. *)
Definition NotFound : failure := Error "Artwork does not exist".
Definition NotForSale : failure := Error "Artwork is not for sale".
Definition InsufficientPayment : failure := Error "Insufficient payment".
Definition InvalidRating : failure := Error "Rating must be between 1 and 5".
Definition AlreadyRated : failure :=
  Error "User has already rated this artwork".

(** ** A test scenario

    The accounts and the listing of the contract's test suite. *)
Definition everyone : address -> bool := fun _ => true.
Definition as_ (who : address) : Env := mkEnv who 1700000000 everyone.

Definition admin : address := 1.
Definition artist1 : address := 2.
Definition buyer1 : address := 3.
Definition buyer2 : address := 4.
Definition ARTWORK_PRICE : N := 1000000000000000000.

Definition st_gallery : State :=
  fst (transact (as_ admin)
         (CreateGallery "test-gallery" "Test Gallery" "A gallery for testing")
         (deployed admin)).

Definition st_listed : State :=
  fst (transact (as_ artist1)
         (CreateArtwork "Test Art" "ipfs://QmTest" ARTWORK_PRICE
            "test-gallery" 10) st_gallery).

Definition st_sold : State :=
  fst (transact (as_ buyer1) (PurchaseArtwork 1 ARTWORK_PRICE) st_listed).

(** The artist hands the listed token to [buyer1] outside a sale. *)
Definition st_handed : State :=
  fst (transact (as_ artist1) (TransferFrom artist1 buyer1 1) st_listed).

(** [buyer2] buys the handed-over token: a secondary sale. *)
Definition st_resold : State :=
  fst (transact (as_ buyer2) (PurchaseArtwork 1 ARTWORK_PRICE) st_handed).

(** The effects of the primary sale [st_listed] to [st_sold] and of the
    secondary sale [st_handed] to [st_resold]. *)
Definition tr_primary : list Effect :=
  [Wrote slot_status; Wrote (slot_owner 1);
   Emitted (Transfer artist1 buyer1 1);
   Sent admin 25000000000000000; Sent artist1 975000000000000000;
   Wrote (slot_artwork 1);
   Emitted (ArtworkSold 1 artist1 buyer1 ARTWORK_PRICE);
   Wrote slot_status].

Definition tr_secondary : list Effect :=
  [Wrote slot_status; Sent artist1 100000000000000000;
   Emitted (RoyaltyPaid 1 artist1 100000000000000000);
   Wrote (slot_owner 1); Emitted (Transfer buyer1 buyer2 1);
   Sent admin 25000000000000000; Sent buyer1 875000000000000000;
   Wrote (slot_artwork 1);
   Emitted (ArtworkSold 1 buyer1 buyer2 ARTWORK_PRICE);
   Wrote slot_status].

(** The listing after the two reviews of the test suite. *)
Definition st_reviewed : State :=
  fst (transact_all
         [ (as_ buyer1, AddReview 1 "Review 1" 4);
           (as_ buyer2, AddReview 1 "Review 2" 2) ] st_listed).

(** Creations that return, a creation and a purchase that revert, and
    other calls, in one sequence. *)
Definition txs_mixed : list (Env * Call) :=
  [ (as_ artist1, CreateArtwork "One" "ipfs://Qm1" 5 "test-gallery" 10);
    (as_ artist1, CreateArtwork "Free" "ipfs://Qm0" 0 "test-gallery" 10);
    (as_ buyer1, PurchaseArtwork 1 4);
    (as_ buyer1, AddReview 1 "Nice" 5);
    (as_ buyer2, CreateArtwork "" "ipfs://Qm0" 5 "test-gallery" 10);
    (as_ buyer2, CreateArtwork "Two" "ipfs://Qm2" 7 "test-gallery" 100);
    (as_ buyer1, CreateArtwork "Lost" "ipfs://Qm3" 7 "no-such-gallery" 0);
    (as_ buyer1, CreateArtwork "Three" "ipfs://Qm3" 7 "test-gallery" 0) ].

(** A listing with a royalty of 100 percent and a price of 1 wei, handed
    to [buyer1]. *)
Definition st_full_royalty : State :=
  fst (transact_all
         [ (as_ artist1,
            CreateArtwork "All Mine" "ipfs://QmTest" 1 "test-gallery" 100);
           (as_ artist1, TransferFrom artist1 buyer1 1) ] st_gallery).

(** ** Further invariants of the registry *)

(** Every minted token has a stored artwork. *)
Definition stored (st : State) : Prop :=
  forall tok, _exists st tok = true -> is_Some (artworks st !! tok).

(** Every stored artwork still meets the requirements of its creation. *)
Definition listings_valid (st : State) : Prop :=
  map_Forall (fun _ a =>
      royaltyPercentage a <= 100 /\ 0 < price a /\
      String.length (title a) <> 0%nat /\ artist a <> 0 /\
      isActive (gallery_at st (galleryId a)) = true)
    (artworks st).

(** Every stored gallery is active. *)
Definition galleries_active (st : State) : Prop :=
  map_Forall (fun _ g => isActive g = true) (galleries st).

(** The member list of a gallery holds, once each, the tokens whose
    artwork names that gallery. *)
Definition gallery_index_ok (st : State) : Prop :=
  forall key,
    NoDup (artworkIds (gallery_at st key)) /\
    forall tok,
      tok ∈ artworkIds (gallery_at st key) <->
      exists a, artworks st !! tok = Some a /\ galleryId a = key.

(** The per-owner list of an identity holds, once each, the tokens of
    the artworks that it created. *)
Definition creator_index_ok (st : State) : Prop :=
  forall who,
    NoDup (userArtworks_at st who) /\
    forall tok,
      tok ∈ userArtworks_at st who <->
      exists a, artworks st !! tok = Some a /\ artist a = who.

(** The gallery list of an identity holds, once each, the keys of the
    galleries that it curates. *)
Definition curator_index_ok (st : State) : Prop :=
  forall who,
    NoDup (userGalleries_at st who) /\
    forall key,
      key ∈ userGalleries_at st who <->
      exists g, galleries st !! key = Some g /\ curator g = who.

(** The reviews of an artwork come from distinct reviewers, who are the
    identities marked as having rated it, and carry ratings from 1 to 5. *)
Definition reviews_ok (st : State) : Prop :=
  forall tok,
    NoDup (reviewer <$> reviews_at st tok) /\
    (forall who,
       who ∈ (reviewer <$> reviews_at st tok) <-> (tok, who) ∈ hasRated st) /\
    Forall (fun r => 1 <= rating r <= 5) (reviews_at st tok).

(** The tokens in use are the ids from 1 to the counter. *)
Definition ids_dense (st : State) : Prop :=
  forall tok, _exists st tok = true <-> 1 <= tok <= _tokenIds st.

(** The total of a list of payments. *)
Definition total_paid (l : list (address * N)) : N :=
  foldr (fun p acc => snd p + acc) 0 l.

(** ** The IPFS gateway helper of the client

    [getIPFSUrl] of [client/src/utils/ipfs.js], on the inputs it is given:
    a string, or [null]/[undefined] ([None]).  The empty string is falsy
    like [None].  [replace] with a string pattern rewrites the first
    occurrence only. *)
Fixpoint startsWith (s pat : string) {struct pat} : bool :=
  match pat with
  | EmptyString => true
  | String a pat' =>
      match s with
      | EmptyString => false
      | String b s' => Ascii.eqb a b && startsWith s' pat'
      end
  end.

Fixpoint string_drop (n : nat) (s : string) : string :=
  match n, s with
  | O, _ => s
  | S n', EmptyString => EmptyString
  | S n', String _ s' => string_drop n' s'
  end.

Fixpoint replace (s pat rep : string) : string :=
  if startsWith s pat then rep +:+ string_drop (String.length pat) s
  else
    match s with
    | EmptyString => EmptyString
    | String c s' => String c (replace s' pat rep)
    end.

Definition getIPFSUrl (hash : option string) : string :=
  match hash with
  | None => ""
  | Some h =>
      if String.eqb h "" then ""
      else
        let h := if startsWith h "ipfs://" then replace h "ipfs://" "" else h in
        "https://ipfs.io/ipfs/" +:+ h
  end.

(** ** Reasoning about computations *)

Lemma bind_Ok {A B} (m : M A) (k : A -> M B) st b st2 t :
  bind m k st = Ok (b, st2, t) ->
  exists a st1 t1 t2,
    m st = Ok (a, st1, t1) /\ k a st1 = Ok (b, st2, t2) /\ t = t1 ++ t2.
Proof.
  unfold bind. destruct (m st) as [[[a st1] t1]|f]; [|discriminate].
  destruct (k a st1) as [[[b' st2'] t2]|f] eqn:Hk; [|discriminate].
  intros [= -> -> <-]. exists a, st1, t1, t2. auto.
Qed.

Lemma bind_Fail {A B} (m : M A) (k : A -> M B) st f :
  m st = Fail f -> bind m k st = Fail f.
Proof. unfold bind. intros ->. reflexivity. Qed.

Lemma ret_Ok {A} (a b : A) st st' t :
  ret a st = Ok (b, st', t) -> b = a /\ st' = st /\ t = [].
Proof. unfold ret. intros [= <- <- <-]. auto. Qed.

Lemma read_Ok {A} (f : State -> A) b st st' t :
  read f st = Ok (b, st', t) -> b = f st /\ st' = st /\ t = [].
Proof. unfold read. intros [= <- <- <-]. auto. Qed.

Lemma write_Ok s f u st st' t :
  write s f st = Ok (u, st', t) -> st' = f st /\ t = [Wrote s].
Proof. unfold write. intros [= _ <- <-]. auto. Qed.

Lemma emit_Ok e u st st' t :
  emit e st = Ok (u, st', t) -> st' = st /\ t = [Emitted e].
Proof. unfold emit. intros [= _ <- <-]. auto. Qed.

Lemma require_Ok c r u st st' t :
  require c r st = Ok (u, st', t) -> c = true /\ st' = st /\ t = [].
Proof.
  unfold require. destruct c; [|discriminate].
  unfold ret. intros [= _ <- <-]. auto.
Qed.

Lemma checked_add_Ok a b r st st' t :
  checked_add a b st = Ok (r, st', t) ->
  a + b <= uint256_max /\ r = a + b /\ st' = st /\ t = [].
Proof.
  unfold checked_add. destruct (N.leb_spec (a + b) uint256_max); [|discriminate].
  unfold ret. intros [= <- <- <-]. auto.
Qed.

Lemma checked_sub_Ok a b r st st' t :
  checked_sub a b st = Ok (r, st', t) ->
  b <= a /\ r = a - b /\ st' = st /\ t = [].
Proof.
  unfold checked_sub. destruct (N.leb_spec b a); [|discriminate].
  unfold ret. intros [= <- <- <-]. auto.
Qed.

Lemma checked_mul_Ok a b r st st' t :
  checked_mul a b st = Ok (r, st', t) ->
  a * b <= uint256_max /\ r = a * b /\ st' = st /\ t = [].
Proof.
  unfold checked_mul. destruct (N.leb_spec (a * b) uint256_max); [|discriminate].
  unfold ret. intros [= <- <- <-]. auto.
Qed.

Lemma transfer_Ok env to amount u st st' t :
  transfer env to amount st = Ok (u, st', t) ->
  amount <= balance st /\ accepts env to = true /\
  st' = set_balance (balance st - amount) st /\ t = [Sent to amount].
Proof.
  unfold transfer. destruct (N.leb_spec amount (balance st)); [|discriminate].
  destruct (accepts env to); [|discriminate].
  simpl. intros [= _ <- <-]. auto.
Qed.

Lemma receive_value_Ok v u st st' t :
  receive_value v st = Ok (u, st', t) ->
  st' = set_balance (balance st + v) st /\ t = [].
Proof. unfold receive_value. intros [= _ <- <-]. auto. Qed.

(** Decompose a hypothesis stating that a computation returned. *)
Ltac minv :=
  repeat (cbv beta zeta in *;
    match goal with
    | H : bind _ _ _ = Ok _ |- _ =>
        apply bind_Ok in H; destruct H as (? & ? & ? & ? & ? & ? & ->)
    | H : ret _ _ = Ok _ |- _ =>
        apply ret_Ok in H; destruct H as (? & ? & ?); simplify_eq
    | H : read _ _ = Ok _ |- _ =>
        apply read_Ok in H; destruct H as (? & ? & ?); simplify_eq
    | H : write _ _ _ = Ok _ |- _ =>
        apply write_Ok in H; destruct H as (? & ?); simplify_eq
    | H : emit _ _ = Ok _ |- _ =>
        apply emit_Ok in H; destruct H as (? & ?); simplify_eq
    | H : require _ _ _ = Ok _ |- _ =>
        apply require_Ok in H; destruct H as (? & ? & ?); simplify_eq
    | H : checked_add _ _ _ = Ok _ |- _ =>
        apply checked_add_Ok in H; destruct H as (? & ? & ? & ?); simplify_eq
    | H : checked_sub _ _ _ = Ok _ |- _ =>
        apply checked_sub_Ok in H; destruct H as (? & ? & ? & ?); simplify_eq
    | H : checked_mul _ _ _ = Ok _ |- _ =>
        apply checked_mul_Ok in H; destruct H as (? & ? & ? & ?); simplify_eq
    | H : transfer _ _ _ _ = Ok _ |- _ =>
        apply transfer_Ok in H; destruct H as (? & ? & ? & ?); simplify_eq
    | H : receive_value _ _ = Ok _ |- _ =>
        apply receive_value_Ok in H; destruct H as (? & ?); simplify_eq
    | H : revert _ _ = Ok _ |- _ => discriminate H
    | H : (if ?c then _ else _) _ = Ok _ |- _ => destruct c eqn:?
    end).

(** Reduce reads of fields through the field updates. *)
Ltac sproj :=
  unfold update_artwork, artwork_at, gallery_at, reviews_at, hasRated_at,
    userArtworks_at, userGalleries_at, _exists, _ownerOf in *;
  cbn [_tokenIds _galleryIds platformFee artworks galleries reviews hasRated
       userArtworks userGalleries _owners _tokenURIs _owner _status balance
       set_tokenIds set_platformFee set_artworks set_galleries set_reviews
       set_hasRated set_userArtworks set_userGalleries set_owners
       set_tokenURIs set_status set_balance] in *.

Lemma State_ext (s1 s2 : State) :
  _tokenIds s1 = _tokenIds s2 -> _galleryIds s1 = _galleryIds s2 ->
  platformFee s1 = platformFee s2 -> artworks s1 = artworks s2 ->
  galleries s1 = galleries s2 -> reviews s1 = reviews s2 ->
  hasRated s1 = hasRated s2 -> userArtworks s1 = userArtworks s2 ->
  userGalleries s1 = userGalleries s2 -> _owners s1 = _owners s2 ->
  _tokenURIs s1 = _tokenURIs s2 -> _owner s1 = _owner s2 ->
  _status s1 = _status s2 -> balance s1 = balance s2 -> s1 = s2.
Proof. destruct s1, s2; simpl; intros; subst; reflexivity. Qed.

(** Turn boolean tests in the context into propositions. *)
Ltac btests :=
  repeat match goal with
  | H : negb _ = true |- _ => apply negb_true_iff in H
  | H : negb _ = false |- _ => apply negb_false_iff in H
  | H : (_ && _)%bool = true |- _ => apply andb_true_iff in H; destruct H
  | H : (_ =? _) = true |- _ => apply N.eqb_eq in H
  | H : (_ =? _) = false |- _ => apply N.eqb_neq in H
  | H : (_ <=? _) = true |- _ => apply N.leb_le in H
  | H : (_ <=? _) = false |- _ => apply N.leb_gt in H
  | H : (_ <? _) = true |- _ => apply N.ltb_lt in H
  | H : (_ <? _) = false |- _ => apply N.ltb_ge in H
  | H : (_ =? _)%nat = false |- _ => apply Nat.eqb_neq in H
  | H : (_ =? _)%nat = true |- _ => apply Nat.eqb_eq in H
  end.

(** ** What a purchase that returns has done *)

Lemma purchaseArtwork_Ok env id v st u st' tr :
  purchaseArtwork env id v st = Ok (u, st', tr) ->
  let a := artwork_at st id in
  let seller := _ownerOf st id in
  let fee := v * platformFee st / 1000 in
  let royalty :=
    if seller =? artist a then 0 else v * royaltyPercentage a / 100 in
  _status st = false /\ seller <> 0 /\ forSale a = true /\ price a <= v /\
  msg_sender env <> 0 /\ fee <= v /\ royalty <= v - fee /\
  st' = set_artworks (<[id := with_forSale false a]> (artworks st))
          (set_owners (<[id := msg_sender env]> (_owners st)) st) /\
  tr = sale_trace id seller (msg_sender env) (artist a) (_owner st) v fee
         royalty.
Proof.
  unfold purchaseArtwork, nonReentrant, _transfer, ownerOf. intros H. minv.
  all: sproj; unfold sale_trace.
  all: repeat match goal with
       | H : negb (?a =? ?b) = true |- context [?a =? ?b] =>
           apply negb_true_iff in H; rewrite H
       | H : negb (?a =? ?b) = false |- context [?a =? ?b] =>
           apply negb_false_iff in H; rewrite H
       end.
  all: btests; repeat split; try assumption; try lia.
  all: try (simpl; reflexivity).
  all: apply State_ext; sproj; try reflexivity; try congruence; lia.
Qed.

(** ** What the other functions have done when they return *)

Lemma createArtwork_Ok env t u p g r st id st' tr :
  createArtwork env t u p g r st = Ok (id, st', tr) ->
  let who := msg_sender env in
  let gal := gallery_at st g in
  _status st = false /\ String.length t <> 0%nat /\ 0 < p /\
  isActive gal = true /\ r <= 100 /\ who <> 0 /\
  id = increment (_tokenIds st) /\ _exists st id = false /\
  st' =
    set_userArtworks (<[who := userArtworks_at st who ++ [id]]> (userArtworks st))
      (set_galleries
         (<[g := mkGallery (name gal) (curator gal) (artworkIds gal ++ [id])
                   (isActive gal) (description gal) (gCreatedAt gal)]>
            (galleries st))
         (set_artworks
            (<[id := mkArtwork t who p true 0 0 g r (block_timestamp env)]>
               (artworks st))
            (set_tokenURIs (<[id := u]> (_tokenURIs st))
               (set_owners (<[id := who]> (_owners st))
                  (set_tokenIds id st))))) /\
  tr = [Wrote slot_status; Wrote slot_tokenIds; Wrote (slot_owner id);
        Emitted (Transfer 0 who id); Wrote (slot_tokenURI id);
        Wrote (slot_artwork id); Wrote (slot_gallery g);
        Wrote (slot_userArtworks who); Emitted (ArtworkCreated id t who p);
        Wrote slot_status].
Proof.
  unfold createArtwork, nonReentrant, _mint, _setTokenURI. intros H. minv.
  sproj. btests.
  repeat split; try assumption; try lia; try reflexivity.
  - rewrite H1. reflexivity.
  - apply State_ext; sproj; try reflexivity; congruence.
Qed.

Lemma createGallery_Ok env g n d st u st' tr :
  createGallery env g n d st = Ok (u, st', tr) ->
  let who := msg_sender env in
  String.length g <> 0%nat /\ String.length n <> 0%nat /\
  isActive (gallery_at st g) = false /\
  st' =
    set_userGalleries
      (<[who := userGalleries_at st who ++ [g]]> (userGalleries st))
      (set_galleries
         (<[g := mkGallery n who [] true d (block_timestamp env)]>
            (galleries st)) st) /\
  tr = [Wrote (slot_gallery g); Wrote (slot_userGalleries who);
        Emitted (GalleryCreated g n who)].
Proof.
  unfold createGallery. intros H. minv. sproj. btests.
  repeat split; try assumption; try reflexivity.
Qed.

Lemma addReview_Ok env id c r st u st' tr :
  addReview env id c r st = Ok (u, st', tr) ->
  let who := msg_sender env in
  let a := artwork_at st id in
  _exists st id = true /\ 1 <= r <= 5 /\ ((id, who) ∉ hasRated st) /\
  totalRatings a + 1 <= uint256_max /\ ratingSum a + r <= uint256_max /\
  st' =
    set_hasRated ({[ (id, who) ]} ∪ hasRated st)
      (set_artworks
         (<[id := with_ratingSum (ratingSum a + r)
                    (with_totalRatings (totalRatings a + 1) a)]> (artworks st))
         (set_reviews
            (<[id := reviews_at st id ++
                       [mkReview who c r (block_timestamp env)]]> (reviews st))
            st)) /\
  tr = [Wrote (slot_reviews id); Wrote (slot_artwork id);
        Wrote (slot_artwork id); Wrote (slot_hasRated id who);
        Emitted (ReviewAdded id who c r)].
Proof.
  unfold addReview. intros H. minv. sproj. btests.
  repeat match goal with
         | H : bool_decide _ = false |- _ => apply bool_decide_eq_false in H
         end.
  rewrite lookup_insert_eq in *. cbn [default from_option Datatypes.id] in *.
  repeat split; try assumption; try lia; try reflexivity.
  - apply negb_true_iff, N.eqb_neq. assumption.
  - apply State_ext; sproj; try reflexivity.
    rewrite insert_insert_eq. reflexivity.
Qed.

Lemma getArtwork_Ok id st v st' tr :
  getArtwork id st = Ok (v, st', tr) ->
  let a := artwork_at st id in
  _exists st id = true /\ st' = st /\ tr = [] /\
  v = mkView (title a) (artist a) (price a) (forSale a)
        (if 0 <? totalRatings a then ratingSum a / totalRatings a else 0)
        (galleryId a) (royaltyPercentage a).
Proof. unfold getArtwork. intros H. minv. auto. Qed.

Lemma getGalleryArtworks_Ok g st l st' tr :
  getGalleryArtworks g st = Ok (l, st', tr) ->
  isActive (gallery_at st g) = true /\ st' = st /\ tr = [] /\
  l = artworkIds (gallery_at st g).
Proof. unfold getGalleryArtworks. intros H. minv. auto. Qed.

Lemma updatePlatformFee_Ok env f st u st' tr :
  updatePlatformFee env f st = Ok (u, st', tr) ->
  _owner st = msg_sender env /\ f <= 100 /\
  st' = set_platformFee f st /\ tr = [Wrote slot_platformFee].
Proof.
  unfold updatePlatformFee, onlyOwner. intros H. minv. btests. auto.
Qed.

Lemma transferFrom_Ok env from to id st u st' tr :
  transferFrom env from to id st = Ok (u, st', tr) ->
  _ownerOf st id = from /\ from <> 0 /\ msg_sender env = from /\ to <> 0 /\
  st' = set_owners (<[id := to]> (_owners st)) st /\
  tr = [Wrote (slot_owner id); Emitted (Transfer from to id)].
Proof.
  unfold transferFrom, _transfer, ownerOf. intros H. minv. sproj. btests.
  repeat split; congruence.
Qed.

Lemma exec_Ok env c st r st' tr :
  exec env c st = Ok (r, st', tr) ->
  match c with
  | CreateArtwork t u p g ro =>
      exists id, r = RTokenId id /\
        createArtwork env t u p g ro st = Ok (id, st', tr)
  | PurchaseArtwork id v =>
      r = RNone /\ purchaseArtwork env id v st = Ok (tt, st', tr)
  | CreateGallery g n d =>
      r = RNone /\ createGallery env g n d st = Ok (tt, st', tr)
  | AddReview id c ra =>
      r = RNone /\ addReview env id c ra st = Ok (tt, st', tr)
  | GetArtwork id =>
      exists v, r = RArtwork v /\ getArtwork id st = Ok (v, st', tr)
  | GetGalleryArtworks _ | GetUserArtworks _ =>
      exists l, r = RTokenIds l /\ st' = st /\ tr = []
  | GetUserGalleries _ => exists l, r = RKeys l /\ st' = st /\ tr = []
  | UpdatePlatformFee f =>
      r = RNone /\ updatePlatformFee env f st = Ok (tt, st', tr)
  | TransferFrom f t id =>
      r = RNone /\ transferFrom env f t id st = Ok (tt, st', tr)
  end.
Proof.
  destruct c; unfold exec; intros H;
    apply bind_Ok in H; destruct H as (a & s1 & t1 & t2 & Hm & Hr & ->);
    apply ret_Ok in Hr; destruct Hr as (-> & -> & ->);
    rewrite app_nil_r in *; try (destruct a; split; [reflexivity|assumption]);
    eauto.
  - apply getGalleryArtworks_Ok in Hm. destruct Hm as (_ & -> & -> & _). eauto.
  - unfold getUserArtworks in Hm. apply read_Ok in Hm.
    destruct Hm as (_ & -> & ->). eauto.
  - unfold getUserGalleries in Hm. apply read_Ok in Hm.
    destruct Hm as (_ & -> & ->). eauto.
Qed.

(** Case analysis on a call that returned: one goal per function of the
    contract, with the facts of the matching lemma above in the context. *)
Ltac exec_cases E :=
  apply exec_Ok in E;
  match type of E with
  | match ?c with _ => _ end => destruct c
  end;
  [ destruct E as (? & -> & E); apply createArtwork_Ok in E
  | destruct E as (-> & E); apply purchaseArtwork_Ok in E
  | destruct E as (-> & E); apply createGallery_Ok in E
  | destruct E as (-> & E); apply addReview_Ok in E
  | destruct E as (? & -> & E); apply getArtwork_Ok in E
  | destruct E as (? & -> & E)
  | destruct E as (? & -> & E)
  | destruct E as (? & -> & E)
  | destruct E as (-> & E); apply updatePlatformFee_Ok in E
  | destruct E as (-> & E); apply transferFrom_Ok in E ];
  cbv zeta in E;
  repeat match type of E with
         | _ /\ _ => let H := fresh "H" in destruct E as [H E]
         end.

Lemma transact_cases env c st :
  (exists f, transact env c st = (st, Fail f) /\ exec env c st = Fail f) \/
  (exists r st' tr,
     transact env c st = (st', Ok (r, tr)) /\ exec env c st = Ok (r, st', tr)).
Proof.
  unfold transact. destruct (exec env c st) as [[[r st'] tr]|f]; eauto 8.
Qed.

Lemma increment_small c : c + 1 <= uint256_max -> increment c = c + 1.
Proof.
  unfold increment, uint256_max. intros H. apply N.mod_small. lia.
Qed.

(** The counter moves only on a creation that returns, and then by one. *)
Lemma transact_tokenIds env c st st' out :
  transact env c st = (st', out) ->
  match out with
  | Ok (RTokenId id, _) =>
      id = increment (_tokenIds st) /\ _tokenIds st' = id
  | _ => _tokenIds st' = _tokenIds st
  end.
Proof.
  intros H.
  destruct (transact_cases env c st) as [(f & Ht & _)|(r & s & tr & Ht & E)];
    rewrite Ht in H; injection H as <- <-; [reflexivity|].
  exec_cases E; subst; try reflexivity.
  split; reflexivity.
Qed.

(** ** The purchase protocol *)

(** C1, as the code has it: a purchase that returns has performed its
    effects in exactly this order: the guard is taken; on a secondary sale
    the royalty is paid to the artist and [RoyaltyPaid] is emitted; the
    token changes owner; the platform fee is paid to the administrator and
    the proceeds to the seller; only then [forSale] is cleared and
    [ArtworkSold] is emitted, and the guard is released.  The ownership
    change follows the royalty payment, and the [forSale] write and the
    sale event follow every payment, so no purchase has all its effects
    before its first payment. *)
Theorem purchaseArtwork_effect_order env tok v st u st' tr :
  purchaseArtwork env tok v st = Ok (u, st', tr) ->
  let a := artwork_at st tok in
  let seller := _ownerOf st tok in
  let fee := v * platformFee st / 1000 in
  let royalty :=
    if seller =? artist a then 0 else v * royaltyPercentage a / 100 in
  tr =
    [Wrote slot_status] ++
    (if seller =? artist a then []
     else [Sent (artist a) royalty;
           Emitted (RoyaltyPaid tok (artist a) royalty)]) ++
    [Wrote (slot_owner tok);
     Emitted (Transfer seller (msg_sender env) tok);
     Sent (_owner st) fee;
     Sent seller (v - fee - royalty);
     Wrote (slot_artwork tok);
     Emitted (ArtworkSold tok seller (msg_sender env) v);
     Wrote slot_status] /\
  effects_before_interactions tr = false.
Proof.
  intros H. apply purchaseArtwork_Ok in H. cbv zeta in H.
  destruct H as (_ & _ & _ & _ & _ & _ & _ & _ & ->).
  split; [reflexivity|].
  unfold sale_trace. destruct (_ =? _); reflexivity.
Qed.

Lemma purchaseArtwork_effect_order_witness :
  tr_secondary =
    [Wrote slot_status; Sent artist1 (ARTWORK_PRICE * 10 / 100);
     Emitted (RoyaltyPaid 1 artist1 (ARTWORK_PRICE * 10 / 100));
     Wrote (slot_owner 1); Emitted (Transfer buyer1 buyer2 1);
     Sent admin (ARTWORK_PRICE * 25 / 1000);
     Sent buyer1
       (ARTWORK_PRICE - ARTWORK_PRICE * 25 / 1000 - ARTWORK_PRICE * 10 / 100);
     Wrote (slot_artwork 1);
     Emitted (ArtworkSold 1 buyer1 buyer2 ARTWORK_PRICE);
     Wrote slot_status] /\
  effects_before_interactions tr_secondary = false.
Proof.
  refine (purchaseArtwork_effect_order (as_ buyer2) 1 ARTWORK_PRICE st_handed
            tt st_resold tr_secondary _).
  vm_compute. reflexivity.
Defined.

(** The ordering claimed in C1 fails on a plain primary sale: the
    payments to the administrator and to the seller precede the [forSale]
    write and the [ArtworkSold] event. *)
Lemma purchaseArtwork_not_effects_first :
  purchaseArtwork (as_ buyer1) 1 ARTWORK_PRICE st_listed =
    Ok (tt, st_sold, tr_primary) /\
  effects_before_interactions tr_primary = false.
Proof. split; vm_compute; reflexivity. Qed.

(** C2: on a sale that returns with a seller other than the artist, the
    artist is paid [floor(payment * royaltyPercentage / 100)], the
    administrator [floor(payment * platformFee / 1000)], the seller the
    payment less both, and the three amounts add up to the payment. *)
Theorem secondary_sale_split env id v st u st' tr :
  purchaseArtwork env id v st = Ok (u, st', tr) ->
  _ownerOf st id <> artist (artwork_at st id) ->
  let a := artwork_at st id in
  let seller := _ownerOf st id in
  let royaltyAmount := v * royaltyPercentage a / 100 in
  let platformFeeAmount := v * platformFee st / 1000 in
  let sellerProceeds := v - royaltyAmount - platformFeeAmount in
  payments tr =
    [(artist a, royaltyAmount); (_owner st, platformFeeAmount);
     (seller, sellerProceeds)] /\
  royaltyAmount + platformFeeAmount + sellerProceeds = v /\
  balance st' = balance st.
Proof.
  intros H Hne. apply purchaseArtwork_Ok in H. cbv zeta in *.
  destruct H as (_ & _ & _ & _ & _ & Hfee & Hroy & -> & ->).
  apply N.eqb_neq in Hne. rewrite Hne in *.
  unfold sale_trace. rewrite Hne.
  generalize dependent (v * royaltyPercentage (artwork_at st id) / 100).
  generalize dependent (v * platformFee st / 1000).
  intros fee Hfee royalty Hroy.
  split; [|split].
  - simpl. replace (v - fee - royalty) with (v - royalty - fee) by lia.
    reflexivity.
  - lia.
  - reflexivity.
Qed.

Lemma secondary_sale_split_witness :
  payments tr_secondary =
    [(artist1, ARTWORK_PRICE * 10 / 100); (admin, ARTWORK_PRICE * 25 / 1000);
     (buyer1,
      ARTWORK_PRICE - ARTWORK_PRICE * 10 / 100 - ARTWORK_PRICE * 25 / 1000)] /\
  ARTWORK_PRICE * 10 / 100 + ARTWORK_PRICE * 25 / 1000 +
    (ARTWORK_PRICE - ARTWORK_PRICE * 10 / 100 - ARTWORK_PRICE * 25 / 1000) =
    ARTWORK_PRICE /\
  balance st_resold = balance st_handed.
Proof.
  refine (secondary_sale_split (as_ buyer2) 1 ARTWORK_PRICE st_handed tt
            st_resold tr_secondary _ _).
  - vm_compute. reflexivity.
  - vm_compute. discriminate.
Defined.

(** C5: on a sale that returns with the artist as the seller, no royalty
    is paid whatever the royalty percentage: the only payments are the
    platform fee and the whole remainder to the seller, and no
    [RoyaltyPaid] event is emitted. *)
Theorem primary_sale_no_royalty env id v st u st' tr :
  purchaseArtwork env id v st = Ok (u, st', tr) ->
  _ownerOf st id = artist (artwork_at st id) ->
  let seller := _ownerOf st id in
  let platformFeeAmount := v * platformFee st / 1000 in
  tr = sale_trace id seller (msg_sender env) seller (_owner st) v
         platformFeeAmount 0 /\
  payments tr =
    [(_owner st, platformFeeAmount); (seller, v - platformFeeAmount)] /\
  existsb is_royalty_paid tr = false.
Proof.
  intros H He. apply purchaseArtwork_Ok in H. cbv zeta in *.
  destruct H as (_ & _ & _ & _ & _ & Hfee & Hroy & -> & ->).
  rewrite <- He. rewrite N.eqb_refl.
  unfold sale_trace. rewrite N.eqb_refl. simpl.
  rewrite N.sub_0_r. auto.
Qed.

Lemma primary_sale_no_royalty_witness :
  tr_primary =
    sale_trace 1 artist1 buyer1 artist1 admin ARTWORK_PRICE
      (ARTWORK_PRICE * 25 / 1000) 0 /\
  payments tr_primary =
    [(admin, ARTWORK_PRICE * 25 / 1000);
     (artist1, ARTWORK_PRICE - ARTWORK_PRICE * 25 / 1000)] /\
  existsb is_royalty_paid tr_primary = false.
Proof.
  refine (primary_sale_no_royalty (as_ buyer1) 1 ARTWORK_PRICE st_listed tt
            st_sold tr_primary _ _).
  - vm_compute. reflexivity.
  - vm_compute. reflexivity.
Defined.

(** C4: buying an existing artwork that is not for sale reverts with
    "Artwork is not for sale", whoever calls and whatever is paid. *)
Theorem purchase_not_for_sale env id v st :
  _status st = false ->
  _exists st id = true ->
  forSale (artwork_at st id) = false ->
  purchaseArtwork env id v st = Fail NotForSale /\
  transact env (PurchaseArtwork id v) st = (st, Fail NotForSale).
Proof.
  intros Hs Hex Hfs.
  assert (E : purchaseArtwork env id v st = Fail NotForSale).
  { unfold purchaseArtwork, nonReentrant, bind, receive_value, read, require,
      write, ret, revert.
    sproj. rewrite Hs. cbn. rewrite Hex. cbn. rewrite Hfs. reflexivity. }
  split; [exact E|].
  unfold transact, exec. rewrite (bind_Fail _ _ _ _ E). reflexivity.
Qed.

Lemma purchase_not_for_sale_witness :
  purchaseArtwork (as_ buyer2) 1 (2 * ARTWORK_PRICE) st_sold =
    Fail NotForSale /\
  transact (as_ buyer2) (PurchaseArtwork 1 (2 * ARTWORK_PRICE)) st_sold =
    (st_sold, Fail NotForSale).
Proof.
  apply (purchase_not_for_sale (as_ buyer2) 1 (2 * ARTWORK_PRICE) st_sold);
    vm_compute; reflexivity.
Defined.

(** The per-owner index changes only when a creation returns, and then
    by the new id being appended to the creator's list. *)
Lemma transact_userArtworks env c st :
  userArtworks (fst (transact env c st)) = userArtworks st \/
  exists t u p g r tok tr,
    c = CreateArtwork t u p g r /\
    snd (transact env c st) = Ok (RTokenId tok, tr) /\
    userArtworks (fst (transact env c st)) =
      <[msg_sender env := userArtworks_at st (msg_sender env) ++ [tok]]>
        (userArtworks st).
Proof.
  destruct (transact_cases env c st) as [(f & -> & _)|(r & s & tr & -> & E)];
    [left; reflexivity|].
  cbn [fst snd]. exec_cases E; subst; try (left; reflexivity).
  right. eauto 10.
Qed.

(** C9: a purchase that returns leaves the per-owner index untouched:
    every identity, the seller and the buyer included, has the list of
    token ids it had before.  The index is written by creations only: any
    other call, returning or not, leaves it as it is. *)
Theorem purchase_keeps_userArtworks :
  (forall env tok v st u st' tr,
     purchaseArtwork env tok v st = Ok (u, st', tr) ->
     userArtworks st' = userArtworks st /\
     forall who, getUserArtworks who st' = Ok (userArtworks_at st who, st', [])) /\
  (forall env c st,
     (forall t u p g r, c <> CreateArtwork t u p g r) ->
     userArtworks (fst (transact env c st)) = userArtworks st).
Proof.
  split.
  - intros env tok v st u st' tr H.
    apply purchaseArtwork_Ok in H. cbv zeta in H.
    destruct H as (_ & _ & _ & _ & _ & _ & _ & -> & _).
    split; reflexivity.
  - intros env c st Hc.
    destruct (transact_userArtworks env c st)
      as [H|(t & u & p & g & r & tok & tr & -> & _)]; [exact H|].
    exfalso. eapply Hc. reflexivity.
Qed.

Lemma purchase_keeps_userArtworks_witness :
  (userArtworks st_sold = userArtworks st_listed /\
   forall who,
     getUserArtworks who st_sold =
       Ok (userArtworks_at st_listed who, st_sold, [])) /\
  userArtworks (fst (transact (as_ buyer1) (TransferFrom buyer1 buyer2 1) st_sold))
    = userArtworks st_sold.
Proof.
  split.
  - refine (proj1 purchase_keeps_userArtworks (as_ buyer1) 1 ARTWORK_PRICE
              st_listed tt st_sold _ _).
    vm_compute. reflexivity.
  - apply (proj2 purchase_keeps_userArtworks (as_ buyer1)
             (TransferFrom buyer1 buyer2 1) st_sold).
    discriminate.
Defined.

(** The checks of a purchase come in the order: the token exists, it is
    for sale, the payment covers the price. *)
Lemma purchase_unknown env tok v st :
  _status st = false -> _exists st tok = false ->
  purchaseArtwork env tok v st = Fail NotFound.
Proof.
  intros Hs Hex.
  unfold purchaseArtwork, nonReentrant, bind, receive_value, read, require,
    write, ret, revert.
  sproj. rewrite Hs. cbn. rewrite Hex. reflexivity.
Qed.

Lemma purchase_underpaid env tok v st :
  _status st = false -> _exists st tok = true ->
  forSale (artwork_at st tok) = true -> v < price (artwork_at st tok) ->
  purchaseArtwork env tok v st = Fail InsufficientPayment.
Proof.
  intros Hs Hex Hfs Hv. apply N.leb_gt in Hv.
  unfold purchaseArtwork, nonReentrant, bind, receive_value, read, require,
    write, ret, revert.
  sproj. rewrite Hs. cbn. rewrite Hex. cbn. rewrite Hfs. cbn. rewrite Hv.
  reflexivity.
Qed.

(** A creation whose requirements hold returns the next token id and
    stores the listing with the royalty percentage it was given. *)
Lemma createArtwork_returns env t u p g r st :
  _status st = false -> String.length t <> 0%nat -> 0 < p ->
  isActive (gallery_at st g) = true -> r <= 100 -> msg_sender env <> 0 ->
  _exists st (increment (_tokenIds st)) = false ->
  exists st' tr,
    createArtwork env t u p g r st = Ok (increment (_tokenIds st), st', tr) /\
    artworks st' !! increment (_tokenIds st) =
      Some (mkArtwork t (msg_sender env) p true 0 0 g r (block_timestamp env)).
Proof.
  intros Hs Ht Hp Hg Hr Hw Hex.
  apply Nat.eqb_neq in Ht. apply N.ltb_lt in Hp. apply N.leb_le in Hr.
  apply N.eqb_neq in Hw.
  unfold createArtwork, nonReentrant, _mint, _setTokenURI, bind, read,
    require, write, emit, ret, revert.
  sproj. rewrite Hs, Ht, Hp. cbn. rewrite Hg, Hr. cbn. rewrite Hw. cbn.
  rewrite Hex. cbn. rewrite lookup_insert_eq. cbn. rewrite Hw. cbn.
  eexists _, _. split; [reflexivity|]. sproj. apply lookup_insert_eq.
Qed.

(** C10, as the code has it: a resale of an artwork with a royalty of 100
    percent reverts, leaving the storage as it was, whenever the platform
    fee on the payment is at least one unit: the royalty takes the whole
    payment and the proceeds [payment - fee - royalty] would be negative.
    Listings with a royalty of 100 percent can be created. *)
Theorem full_royalty_resale_reverts :
  (forall env id v st,
     _ownerOf st id <> artist (artwork_at st id) ->
     royaltyPercentage (artwork_at st id) = 100 ->
     0 < v * platformFee st / 1000 ->
     (exists f, purchaseArtwork env id v st = Fail f) /\
     fst (transact env (PurchaseArtwork id v) st) = st) /\
  (forall env t u p g st,
     _status st = false -> String.length t <> 0%nat -> 0 < p ->
     isActive (gallery_at st g) = true -> msg_sender env <> 0 ->
     _exists st (increment (_tokenIds st)) = false ->
     exists id st' tr,
       createArtwork env t u p g 100 st = Ok (id, st', tr) /\
       royaltyPercentage (artwork_at st' id) = 100).
Proof.
  split.
  - intros env id v st Hne Hr Hfee.
    destruct (purchaseArtwork env id v st) as [[[u st'] tr]|f] eqn:E.
    + exfalso. apply purchaseArtwork_Ok in E. cbv zeta in E.
      destruct E as (_ & _ & _ & _ & _ & Hf & Hroy & _).
      apply N.eqb_neq in Hne. rewrite Hne, Hr in Hroy.
      rewrite N.div_mul in Hroy by discriminate. lia.
    + split; [eauto|].
      unfold transact, exec. rewrite (bind_Fail _ _ _ _ E). reflexivity.
  - intros env t u p g st Hs Ht Hp Hg Hw Hex.
    destruct (createArtwork_returns env t u p g 100 st) as (st' & tr & E & Ha);
      try assumption; [lia|].
    exists (increment (_tokenIds st)), st', tr. split; [exact E|].
    unfold artwork_at. rewrite Ha. reflexivity.
Qed.

Lemma full_royalty_resale_reverts_witness :
  ((exists f, purchaseArtwork (as_ buyer2) 1 40 st_full_royalty = Fail f) /\
   fst (transact (as_ buyer2) (PurchaseArtwork 1 40) st_full_royalty) =
     st_full_royalty) /\
  (exists id st' tr,
     createArtwork (as_ artist1) "All Mine" "ipfs://QmTest" 1 "test-gallery"
       100 st_gallery = Ok (id, st', tr) /\
     royaltyPercentage (artwork_at st' id) = 100).
Proof.
  split.
  - apply (proj1 full_royalty_resale_reverts (as_ buyer2) 1 40 st_full_royalty).
    + vm_compute. discriminate.
    + vm_compute. reflexivity.
    + vm_compute. reflexivity.
  - apply (proj2 full_royalty_resale_reverts (as_ artist1) "All Mine"
             "ipfs://QmTest" 1 "test-gallery" st_gallery).
    + vm_compute. reflexivity.
    + vm_compute. discriminate.
    + vm_compute. reflexivity.
    + vm_compute. reflexivity.
    + vm_compute. discriminate.
    + vm_compute. reflexivity.
Defined.

(** The claim of C10 fails when the fee rounds down to nothing: with the
    default fee of 25 per mille, a resale at 1 wei of a listing with a
    royalty of 100 percent goes through. *)
Lemma full_royalty_resale_can_succeed :
  royaltyPercentage (artwork_at st_full_royalty 1) = 100 /\
  0 < platformFee st_full_royalty /\
  _ownerOf st_full_royalty 1 <> artist (artwork_at st_full_royalty 1) /\
  exists st',
    transact (as_ buyer2) (PurchaseArtwork 1 1) st_full_royalty =
      (st',
       Ok (RNone,
           [Wrote slot_status; Sent artist1 1;
            Emitted (RoyaltyPaid 1 artist1 1); Wrote (slot_owner 1);
            Emitted (Transfer buyer1 buyer2 1); Sent admin 0; Sent buyer1 0;
            Wrote (slot_artwork 1); Emitted (ArtworkSold 1 buyer1 buyer2 1);
            Wrote slot_status])) /\
    _ownerOf st' 1 = buyer2.
Proof.
  split; [vm_compute; reflexivity|].
  split; [vm_compute; reflexivity|].
  split; [vm_compute; discriminate|].
  eexists. split; vm_compute; reflexivity.
Qed.

(** ** Token ids *)

Lemma count_from_above n len : Forall (fun id => n <= id) (count_from n len).
Proof.
  revert n. induction len as [|len IH]; intros n; simpl; constructor.
  - lia.
  - eapply Forall_impl; [apply IH|]. simpl. intros; lia.
Qed.

Lemma count_from_sorted n len : StronglySorted N.lt (count_from n len).
Proof.
  revert n. induction len as [|len IH]; intros n; simpl; constructor.
  - apply IH.
  - eapply Forall_impl; [apply count_from_above|]. simpl. intros; lia.
Qed.

Lemma transact_all_cons env c rest st :
  transact_all ((env, c) :: rest) st =
    (fst (transact_all rest (fst (transact env c st))),
     snd (transact env c st) :: snd (transact_all rest (fst (transact env c st)))).
Proof.
  simpl. destruct (transact env c st) as [st1 r]. simpl.
  destruct (transact_all rest st1) as [st2 rs]. reflexivity.
Qed.

(** C8: along any sequence of calls (creations that return, creations
    that revert, and every other call) the ids returned by the creations
    are the consecutive numbers after the counter: each is greater than all
    ids issued before it, none is skipped or handed out twice, and the
    counter has advanced by exactly the number of creations that returned.
    The bound says that the 256-bit counter is not exhausted. *)
Theorem created_ids_increase txs st :
  _tokenIds st + N.of_nat (length txs) <= uint256_max ->
  let ids := created_ids (snd (transact_all txs st)) in
  ids = count_from (_tokenIds st + 1) (length ids) /\
  _tokenIds (fst (transact_all txs st)) = _tokenIds st + N.of_nat (length ids) /\
  (length ids <= length txs)%nat /\
  Forall (fun id => _tokenIds st < id) ids /\
  StronglySorted N.lt ids.
Proof.
  intros Hb. cbv zeta.
  assert (Hmain :
    created_ids (snd (transact_all txs st)) =
      count_from (_tokenIds st + 1)
        (length (created_ids (snd (transact_all txs st)))) /\
    _tokenIds (fst (transact_all txs st)) =
      _tokenIds st +
      N.of_nat (length (created_ids (snd (transact_all txs st)))) /\
    (length (created_ids (snd (transact_all txs st))) <= length txs)%nat).
  { revert st Hb. induction txs as [|[env c] rest IH]; intros st Hb.
    - simpl. repeat split; lia.
    - rewrite transact_all_cons. cbn [fst snd].
      destruct (transact env c st) as [st1 out] eqn:Et. cbn [fst snd].
      pose proof (transact_tokenIds _ _ _ _ _ Et) as Hc.
      simpl length in Hb.
      assert (Hstep : _tokenIds st1 = _tokenIds st \/
                      _tokenIds st1 = _tokenIds st + 1).
      { destruct out as [[[] tr]|f]; try (left; exact Hc).
        right. destruct Hc as [-> ->]. apply increment_small. lia. }
      specialize (IH st1).
      destruct IH as (IH1 & IH2 & IH3); [lia|].
      set (ids := created_ids (snd (transact_all rest st1))) in *.
      unfold created_ids; cbn [flat_map]; fold (created_ids (snd (transact_all rest st1))).
      fold ids.
      destruct out as [[[| id | | |] tr]|f]; cbn [app length];
        try (rewrite Hc in *; repeat split; [exact IH1 | exact IH2 | lia]).
      destruct Hc as [-> Hc]. rewrite increment_small in * by lia.
      rewrite Hc in *. simpl. repeat split.
      + f_equal. exact IH1.
      + lia.
      + lia. }
  destruct Hmain as (H1 & H2 & H3). repeat split; try assumption.
  - rewrite H1. eapply Forall_impl; [apply count_from_above|].
    simpl. intros; lia.
  - rewrite H1. apply count_from_sorted.
Qed.

Lemma created_ids_increase_witness :
  created_ids (snd (transact_all txs_mixed st_gallery)) = [1; 2; 3] /\
  (created_ids (snd (transact_all txs_mixed st_gallery)) =
     count_from (_tokenIds st_gallery + 1)
       (length (created_ids (snd (transact_all txs_mixed st_gallery)))) /\
   _tokenIds (fst (transact_all txs_mixed st_gallery)) =
     _tokenIds st_gallery +
     N.of_nat (length (created_ids (snd (transact_all txs_mixed st_gallery)))) /\
   (length (created_ids (snd (transact_all txs_mixed st_gallery)))
      <= length txs_mixed)%nat /\
   Forall (fun id => _tokenIds st_gallery < id)
     (created_ids (snd (transact_all txs_mixed st_gallery))) /\
   StronglySorted N.lt (created_ids (snd (transact_all txs_mixed st_gallery)))).
Proof.
  split.
  - vm_compute. reflexivity.
  - apply (created_ids_increase txs_mixed st_gallery).
    apply N.leb_le. vm_compute. reflexivity.
Defined.

(** ** Reviews *)

(** Tokens are never burnt. *)
Lemma transact_exists env c st tok :
  _exists st tok = true -> _exists (fst (transact env c st)) tok = true.
Proof.
  intros Hex.
  destruct (transact_cases env c st) as [(f & -> & _)|(r & s & tr & -> & E)];
    [exact Hex|].
  cbn [fst]. exec_cases E; subst; try exact Hex; sproj.
  all: apply negb_true_iff, N.eqb_neq; apply negb_true_iff, N.eqb_neq in Hex.
  all: match goal with
       | |- default 0 (<[?k := _]> _ !! ?t) <> 0 =>
           destruct (decide (k = t)) as [Hk|Hk];
             [rewrite Hk, lookup_insert_eq
             | rewrite lookup_insert_ne by exact Hk]
       end; simpl; assumption.
Qed.

(** The record of who has rated what is never retracted. *)
Lemma transact_hasRated env c st id who :
  (id, who) ∈ hasRated st -> (id, who) ∈ hasRated (fst (transact env c st)).
Proof.
  intros Hin.
  destruct (transact_cases env c st) as [(f & -> & _)|(r & s & tr & -> & E)];
    [exact Hin|].
  cbn [fst]. exec_cases E; subst; try exact Hin; sproj.
  apply elem_of_union. right. exact Hin.
Qed.

Lemma transact_all_rated txs st id who :
  _exists st id = true -> (id, who) ∈ hasRated st ->
  _exists (fst (transact_all txs st)) id = true /\
  (id, who) ∈ hasRated (fst (transact_all txs st)).
Proof.
  revert st. induction txs as [|[env c] rest IH]; intros st Hex Hin.
  - simpl. auto.
  - rewrite transact_all_cons. cbn [fst].
    apply IH; [apply transact_exists | apply transact_hasRated]; assumption.
Qed.

(** What [addReview] does on an existing artwork that the caller has
    already rated: the range of the rating is checked first. *)
Lemma addReview_again env tok c r st :
  _exists st tok = true -> (tok, msg_sender env) ∈ hasRated st ->
  addReview env tok c r st =
    Fail (if (1 <=? r) && (r <=? 5) then AlreadyRated else InvalidRating).
Proof.
  intros Hex Hin.
  unfold addReview, bind, read, require, revert, ret.
  rewrite Hex. cbn.
  destruct ((1 <=? r) && (r <=? 5)); [|reflexivity].
  unfold hasRated_at. rewrite bool_decide_eq_true_2 by exact Hin. reflexivity.
Qed.

(** C6, as the code has it: once a caller's review of an artwork has been
    accepted, every later [addReview] by that caller on that artwork (with
    any comment, at any later time, after any other calls) reverts and
    leaves the storage, hence the rating count, the rating sum and the
    reviews, as they were.  It reverts with "User has already rated this
    artwork" when the new rating is within 1..5, and with "Rating must be
    between 1 and 5" otherwise, because the range is checked first. *)
Theorem second_review_rejected env tok c r st u st1 tr txs env2 c2 r2 :
  addReview env tok c r st = Ok (u, st1, tr) ->
  msg_sender env2 = msg_sender env ->
  transact env2 (AddReview tok c2 r2) (fst (transact_all txs st1)) =
    (fst (transact_all txs st1),
     Fail (if (1 <=? r2) && (r2 <=? 5) then AlreadyRated else InvalidRating)).
Proof.
  intros H Hsame. apply addReview_Ok in H. cbv zeta in H.
  destruct H as (Hex & _ & _ & _ & _ & Hst & _).
  assert (Hex1 : _exists st1 tok = true) by (subst st1; exact Hex).
  assert (Hin1 : (tok, msg_sender env2) ∈ hasRated st1).
  { subst st1. sproj. rewrite Hsame.
    apply elem_of_union. left. apply elem_of_singleton. reflexivity. }
  clear Hst.
  destruct (transact_all_rated txs st1 tok (msg_sender env2) Hex1 Hin1)
    as [Hex2 Hin2].
  unfold transact, exec.
  rewrite (bind_Fail _ _ _ _ (addReview_again env2 tok c2 r2 _ Hex2 Hin2)).
  reflexivity.
Qed.

Lemma second_review_rejected_witness :
  transact (as_ buyer1) (AddReview 1 "Second review" 5)
    (fst (transact_all [(as_ buyer2, AddReview 1 "Review 2" 2)]
            (fst (transact (as_ buyer1) (AddReview 1 "First review" 4)
                    st_listed)))) =
    (fst (transact_all [(as_ buyer2, AddReview 1 "Review 2" 2)]
            (fst (transact (as_ buyer1) (AddReview 1 "First review" 4)
                    st_listed))),
     Fail AlreadyRated).
Proof.
  refine (second_review_rejected (as_ buyer1) 1 "First review" 4 st_listed tt
            (fst (transact (as_ buyer1) (AddReview 1 "First review" 4)
                    st_listed))
            [Wrote (slot_reviews 1); Wrote (slot_artwork 1);
             Wrote (slot_artwork 1); Wrote (slot_hasRated 1 buyer1);
             Emitted (ReviewAdded 1 buyer1 "First review" 4)]
            [(as_ buyer2, AddReview 1 "Review 2" 2)] (as_ buyer1)
            "Second review" 5 _ _).
  - vm_compute. reflexivity.
  - reflexivity.
Defined.

(** The claim of C6 fails for a second review whose rating is out of
    range: it is turned down for its rating, not as a duplicate. *)
Lemma second_review_out_of_range :
  exists st1 tr,
    addReview (as_ buyer1) 1 "First review" 4 st_listed = Ok (tt, st1, tr) /\
    transact (as_ buyer1) (AddReview 1 "Second review" 6) st1 =
      (st1, Fail InvalidRating) /\
    InvalidRating <> AlreadyRated.
Proof.
  eexists _, _. split; [vm_compute; reflexivity|].
  split; [vm_compute; reflexivity|]. discriminate.
Qed.

(** C7: for an existing artwork [getArtwork] reports as average rating
    the quotient [ratingSum / totalRatings] rounded down (the largest [q]
    with [q * totalRatings <= ratingSum]) when there are ratings and [0]
    when there are none; after the ratings 4 and 2 on an artwork without
    ratings it reports 3. *)
Theorem getArtwork_average :
  (forall tok st,
     _exists st tok = true ->
     exists v,
       getArtwork tok st = Ok (v, st, []) /\
       v_avgRating v =
         (if 0 <? totalRatings (artwork_at st tok)
          then ratingSum (artwork_at st tok) / totalRatings (artwork_at st tok)
          else 0) /\
       (0 < totalRatings (artwork_at st tok) ->
        v_avgRating v * totalRatings (artwork_at st tok)
          <= ratingSum (artwork_at st tok)
          < (v_avgRating v + 1) * totalRatings (artwork_at st tok)) /\
       (totalRatings (artwork_at st tok) = 0 -> v_avgRating v = 0)) /\
  (forall envA envB tok cA cB st uA stA trA uB stB trB,
     totalRatings (artwork_at st tok) = 0 ->
     ratingSum (artwork_at st tok) = 0 ->
     addReview envA tok cA 4 st = Ok (uA, stA, trA) ->
     addReview envB tok cB 2 stA = Ok (uB, stB, trB) ->
     exists v, getArtwork tok stB = Ok (v, stB, []) /\ v_avgRating v = 3).
Proof.
  split.
  - intros tok st Hex. eexists. split; [|split; [|split]].
    + unfold getArtwork, bind, read, require, ret. rewrite Hex. reflexivity.
    + reflexivity.
    + cbn [v_avgRating]. intros Hpos.
      destruct (N.ltb_spec 0 (totalRatings (artwork_at st tok))); [|lia].
      pose proof (N.div_mod' (ratingSum (artwork_at st tok))
                    (totalRatings (artwork_at st tok))) as Hdm.
      pose proof (N.mod_lt (ratingSum (artwork_at st tok))
                    (totalRatings (artwork_at st tok))) as Hlt.
      assert (Hnz : totalRatings (artwork_at st tok) <> 0) by lia.
      specialize (Hlt Hnz).
      generalize dependent (ratingSum (artwork_at st tok) mod
                            totalRatings (artwork_at st tok)).
      generalize dependent (ratingSum (artwork_at st tok) /
                            totalRatings (artwork_at st tok)).
      intros q m Hdm Hlt. nia.
    + cbn [v_avgRating]. intros ->. reflexivity.
  - intros envA envB tok cA cB st uA stA trA uB stB trB H0 HS HA HB.
    apply addReview_Ok in HA. cbv zeta in HA.
    destruct HA as (HexA & _ & _ & _ & _ & -> & _).
    apply addReview_Ok in HB. cbv zeta in HB.
    destruct HB as (HexB & _ & _ & _ & _ & -> & _).
    eexists. split.
    + unfold getArtwork, bind, read, require, ret.
      sproj. rewrite HexA. reflexivity.
    + sproj. rewrite !lookup_insert_eq. cbn.
      rewrite H0, HS. reflexivity.
Qed.

Lemma getArtwork_average_witness :
  (exists v,
     getArtwork 1 st_sold = Ok (v, st_sold, []) /\
     v_avgRating v =
       (if 0 <? totalRatings (artwork_at st_sold 1)
        then ratingSum (artwork_at st_sold 1) /
             totalRatings (artwork_at st_sold 1)
        else 0) /\
     (0 < totalRatings (artwork_at st_sold 1) ->
      v_avgRating v * totalRatings (artwork_at st_sold 1)
        <= ratingSum (artwork_at st_sold 1)
        < (v_avgRating v + 1) * totalRatings (artwork_at st_sold 1)) /\
     (totalRatings (artwork_at st_sold 1) = 0 -> v_avgRating v = 0)) /\
  (exists v,
     getArtwork 1
       (fst (transact_all
               [(as_ buyer1, AddReview 1 "Review 1" 4);
                (as_ buyer2, AddReview 1 "Review 2" 2)] st_listed)) =
       Ok (v,
           fst (transact_all
                  [(as_ buyer1, AddReview 1 "Review 1" 4);
                   (as_ buyer2, AddReview 1 "Review 2" 2)] st_listed), []) /\
     v_avgRating v = 3).
Proof.
  split.
  - apply (proj1 getArtwork_average 1 st_sold). vm_compute. reflexivity.
  - refine (proj2 getArtwork_average (as_ buyer1) (as_ buyer2) 1 "Review 1"
              "Review 2" st_listed tt
              (fst (transact (as_ buyer1) (AddReview 1 "Review 1" 4) st_listed))
              [Wrote (slot_reviews 1); Wrote (slot_artwork 1);
               Wrote (slot_artwork 1); Wrote (slot_hasRated 1 buyer1);
               Emitted (ReviewAdded 1 buyer1 "Review 1" 4)]
              tt
              (fst (transact_all
                      [(as_ buyer1, AddReview 1 "Review 1" 4);
                       (as_ buyer2, AddReview 1 "Review 2" 2)] st_listed))
              [Wrote (slot_reviews 1); Wrote (slot_artwork 1);
               Wrote (slot_artwork 1); Wrote (slot_hasRated 1 buyer2);
               Emitted (ReviewAdded 1 buyer2 "Review 2" 2)]
              _ _ _ _); vm_compute; reflexivity.
Defined.

(** ** Price and listing *)

Lemma exists_insert_owner (owners : gmap N N) k to tok :
  to <> 0 ->
  negb (default 0 (owners !! tok) =? 0) = true ->
  negb (default 0 (<[k := to]> owners !! tok) =? 0) = true.
Proof.
  intros Hto H. destruct (decide (k = tok)) as [->|Hk].
  - rewrite lookup_insert_eq. simpl. apply negb_true_iff, N.eqb_neq. exact Hto.
  - rewrite lookup_insert_ne by exact Hk. exact H.
Qed.

(** No function of the contract writes a price, puts an artwork back on
    sale or emits [PriceUpdated]. *)
Lemma transact_listing env c st :
  minted st ->
  minted (fst (transact env c st)) /\
  (forall tok a,
     artworks st !! tok = Some a ->
     exists a',
       artworks (fst (transact env c st)) !! tok = Some a' /\
       price a' = price a /\ (forSale a = false -> forSale a' = false)) /\
  existsb is_price_updated (all_effects [snd (transact env c st)]) = false.
Proof.
  intros Hm.
  destruct (transact_cases env c st) as [(f & -> & _)|(r & s & tr & -> & E)].
  { cbn [fst snd]. split; [exact Hm|]. split; [eauto|reflexivity]. }
  cbn [fst snd]. unfold all_effects. cbn [flat_map]. rewrite app_nil_r.
  unfold minted, map_Forall in *.
  exec_cases E; subst; try (split; [exact Hm|]; split; [eauto|reflexivity]).
  - (* createArtwork *)
    sproj. split; [|split; [|reflexivity]].
    + intros i a Hi. destruct (decide (increment (_tokenIds st) = i)) as [<-|Hne].
      * rewrite lookup_insert_eq. simpl. apply negb_true_iff, N.eqb_neq.
        assumption.
      * rewrite lookup_insert_ne in Hi by exact Hne.
        rewrite lookup_insert_ne by exact Hne. eapply Hm. exact Hi.
    + intros tok a Ha. exists a.
      assert (Hne : increment (_tokenIds st) <> tok).
      { intros <-. apply Hm in Ha. congruence. }
      rewrite lookup_insert_ne by exact Hne. auto.
  - (* purchaseArtwork *)
    sproj. split; [|split].
    + intros i a Hi. apply exists_insert_owner; [assumption|].
      destruct (decide (tokenId = i)) as [<-|Hne].
      * apply negb_true_iff, N.eqb_neq. assumption.
      * rewrite lookup_insert_ne in Hi by exact Hne. eapply Hm. exact Hi.
    + intros tok a Ha. destruct (decide (tokenId = tok)) as [->|Hne].
      * rewrite lookup_insert_eq. rewrite Ha. simpl. eauto.
      * rewrite lookup_insert_ne by exact Hne. eauto.
    + unfold sale_trace. destruct (_ =? _); reflexivity.
  - (* addReview *)
    sproj. split; [|split; [|reflexivity]].
    + intros i a Hi. destruct (decide (tokenId = i)) as [<-|Hne].
      * assumption.
      * rewrite lookup_insert_ne in Hi by exact Hne. eapply Hm. exact Hi.
    + intros tok a Ha. destruct (decide (tokenId = tok)) as [->|Hne].
      * rewrite lookup_insert_eq. rewrite Ha. simpl. eauto.
      * rewrite lookup_insert_ne by exact Hne. eauto.
  - (* transferFrom *)
    sproj. split; [|split; [eauto|reflexivity]].
    intros i a Hi. apply exists_insert_owner; [assumption|].
    eapply Hm. exact Hi.
Qed.

(** C3, what the code does instead: the contract has no function that
    updates a price.  Whatever calls are made, by whomever, the price of a
    stored artwork stays what it is, an artwork that is off sale stays off
    sale, and [PriceUpdated] is never emitted. *)
Theorem price_never_updated txs st tok a :
  minted st ->
  artworks st !! tok = Some a ->
  (exists a',
     artworks (fst (transact_all txs st)) !! tok = Some a' /\
     price a' = price a /\ (forSale a = false -> forSale a' = false)) /\
  existsb is_price_updated (all_effects (snd (transact_all txs st))) = false.
Proof.
  revert st a. induction txs as [|[env c] rest IH]; intros st a Hm Ha.
  - simpl. split; [eauto|reflexivity].
  - rewrite transact_all_cons. cbn [fst snd].
    destruct (transact_listing env c st Hm) as (Hm1 & Hkeep & Hev).
    destruct (Hkeep tok a Ha) as (a1 & Ha1 & Hp1 & Hf1).
    destruct (IH _ a1 Hm1 Ha1) as ((a' & Ha' & Hp' & Hf') & Hev').
    split.
    + exists a'. split; [exact Ha'|]. split; [congruence|auto].
    + unfold all_effects in *. cbn [flat_map] in *.
      rewrite app_nil_r in Hev. rewrite existsb_app, Hev, Hev'. reflexivity.
Qed.

Lemma price_never_updated_witness :
  (exists a',
     artworks
       (fst (transact_all
               [(as_ buyer1, PurchaseArtwork 1 ARTWORK_PRICE);
                (as_ buyer1, AddReview 1 "Mine now" 5);
                (as_ buyer1, TransferFrom buyer1 buyer2 1);
                (as_ admin, UpdatePlatformFee 30)] st_sold)) !! 1 = Some a' /\
     price a' = ARTWORK_PRICE /\ (false = false -> forSale a' = false)) /\
  existsb is_price_updated
    (all_effects
       (snd (transact_all
               [(as_ buyer1, PurchaseArtwork 1 ARTWORK_PRICE);
                (as_ buyer1, AddReview 1 "Mine now" 5);
                (as_ buyer1, TransferFrom buyer1 buyer2 1);
                (as_ admin, UpdatePlatformFee 30)] st_sold))) = false.
Proof.
  refine (price_never_updated
            [(as_ buyer1, PurchaseArtwork 1 ARTWORK_PRICE);
             (as_ buyer1, AddReview 1 "Mine now" 5);
             (as_ buyer1, TransferFrom buyer1 buyer2 1);
             (as_ admin, UpdatePlatformFee 30)] st_sold 1
            (mkArtwork "Test Art" artist1 ARTWORK_PRICE false 0 0
               "test-gallery" 10 1700000000) _ _).
  - apply (bool_decide_unpack _). vm_compute. exact I.
  - vm_compute. reflexivity.
Defined.

(** ** Invariants of the reachable states *)

(** The guard is free between transactions. *)
Lemma transact_status env c st :
  _status st = false -> _status (fst (transact env c st)) = false.
Proof.
  intros Hs.
  destruct (transact_cases env c st) as [(f & -> & _)|(r & s & tr & -> & E)];
    [exact Hs|].
  cbn [fst]. exec_cases E; subst; exact Hs.
Qed.

Lemma sum_ratings_app l r : sum_ratings (l ++ [r]) = sum_ratings l + rating r.
Proof. induction l as [|x l IH]; simpl; [lia | rewrite IH; lia]. Qed.

Lemma transact_ratings env c st :
  minted st -> ratings_consistent st ->
  ratings_consistent (fst (transact env c st)).
Proof.
  intros Hm Hc.
  destruct (transact_cases env c st) as [(f & -> & _)|(r & s & tr & -> & E)];
    [exact Hc|].
  cbn [fst]. unfold ratings_consistent, minted, map_Forall in *.
  exec_cases E; subst; try exact Hc; intros t; specialize (Hc t); sproj.
  - (* createArtwork *)
    destruct (decide (increment (_tokenIds st) = t)) as [<-|Hne].
    + rewrite lookup_insert_eq. cbn.
      destruct (artworks st !! increment (_tokenIds st)) as [a|] eqn:Ha.
      * apply Hm in Ha. congruence.
      * cbn in Hc. destruct Hc as [Hlen _].
        destruct (default [] (reviews st !! increment (_tokenIds st)));
          [split; reflexivity | simpl in Hlen; lia].
    + rewrite lookup_insert_ne by exact Hne. exact Hc.
  - (* purchaseArtwork *)
    destruct (decide (tokenId = t)) as [->|Hne].
    + rewrite lookup_insert_eq. exact Hc.
    + rewrite lookup_insert_ne by exact Hne. exact Hc.
  - (* addReview *)
    destruct (decide (tokenId = t)) as [->|Hne].
    + rewrite !lookup_insert_eq. cbn. rewrite length_app, sum_ratings_app.
      cbn. destruct Hc as [-> ->]. split; lia.
    + rewrite !lookup_insert_ne by exact Hne. exact Hc.
Qed.

Lemma reachable_invariant st :
  reachable st -> _status st = false /\ minted st /\ ratings_consistent st.
Proof.
  induction 1 as [d|env c st _ (Hs & Hm & Hc)].
  - split; [reflexivity|]. split.
    + unfold minted, deployed. cbn. apply map_Forall_empty.
    + intros t. split; reflexivity.
  - split; [apply transact_status; exact Hs|]. split.
    + apply transact_listing. exact Hm.
    + apply transact_ratings; assumption.
Qed.

(** In a reachable state the average that [getArtwork] reports is the
    sum of the ratings of the artwork's reviews divided by their number,
    rounded down, and 0 when there is no review. *)
Lemma average_of_reviews st tok :
  reachable st -> _exists st tok = true ->
  exists v,
    getArtwork tok st = Ok (v, st, []) /\
    v_avgRating v =
      match reviews_at st tok with
      | [] => 0
      | l => sum_ratings l / N.of_nat (length l)
      end.
Proof.
  intros Hr Hex. apply reachable_invariant in Hr.
  destruct Hr as (_ & _ & Hc). destruct (Hc tok) as [Hn Hsum].
  eexists. split.
  - unfold getArtwork, bind, read, require, ret. rewrite Hex. reflexivity.
  - cbn [v_avgRating]. rewrite Hn, Hsum.
    destruct (reviews_at st tok) as [|x l]; [reflexivity|].
    destruct (N.ltb_spec 0 (N.of_nat (length (x :: l)))) as [_|H];
      [reflexivity | simpl in H; lia].
Qed.

(** ** Further properties of the contract *)

(** One transaction, by cases: it reverted and the state is the old one,
    or it returned and the facts of the function that ran are at hand. *)
Ltac step_cases env c st E :=
  destruct (transact_cases env c st) as [(? & -> & _)|(? & ? & ? & -> & E)];
  cbn [fst snd];
  [ | exec_cases E; subst ].

Lemma transact_all_app txs1 txs2 st :
  fst (transact_all (txs1 ++ txs2) st) =
    fst (transact_all txs2 (fst (transact_all txs1 st))).
Proof.
  revert st. induction txs1 as [|[env c] rest IH]; intros st; [reflexivity|].
  rewrite <- app_comm_cons, !transact_all_cons. cbn [fst]. apply IH.
Qed.

Lemma reachable_run txs st :
  reachable st -> reachable (fst (transact_all txs st)).
Proof.
  revert st. induction txs as [|[env c] rest IH]; intros st Hr; [exact Hr|].
  rewrite transact_all_cons. cbn [fst]. apply IH. constructor. exact Hr.
Qed.

(** *** Funds *)

Lemma transact_balance env c st :
  balance (fst (transact env c st)) = balance st.
Proof. step_cases env c st E; reflexivity. Qed.

Lemma total_paid_sale tok seller buyer creator adm v fee royalty :
  fee <= v -> royalty <= v - fee ->
  total_paid
    (payments
       (sale_trace tok seller buyer creator adm v fee
          (if seller =? creator then 0 else royalty))) = v.
Proof.
  intros Hf Hr. unfold sale_trace.
  destruct (seller =? creator); cbn; lia.
Qed.

(** The contract keeps no funds: a purchase that returns pays out in
    full what it was paid, no transaction changes the balance of the
    contract, and in every reachable state that balance is zero. *)
Theorem contract_keeps_no_funds :
  (forall env tok v st u st' tr,
     purchaseArtwork env tok v st = Ok (u, st', tr) ->
     total_paid (payments tr) = v) /\
  (forall env c st, balance (fst (transact env c st)) = balance st) /\
  (forall st, reachable st -> balance st = 0).
Proof.
  split; [|split].
  - intros env tok v st u st' tr H.
    apply purchaseArtwork_Ok in H. cbv zeta in H.
    destruct H as (_ & _ & _ & _ & _ & Hf & Hr & _ & ->).
    destruct (_ownerOf st tok =? artist (artwork_at st tok)) eqn:E.
    + pose proof (total_paid_sale tok (_ownerOf st tok) (msg_sender env)
                    (artist (artwork_at st tok)) (_owner st) v
                    (v * platformFee st / 1000) 0 Hf Hr) as Hp.
      rewrite E in Hp. exact Hp.
    + pose proof (total_paid_sale tok (_ownerOf st tok) (msg_sender env)
                    (artist (artwork_at st tok)) (_owner st) v
                    (v * platformFee st / 1000)
                    (v * royaltyPercentage (artwork_at st tok) / 100) Hf Hr)
        as Hp.
      rewrite E in Hp. exact Hp.
  - apply transact_balance.
  - induction 1 as [d|env c st _ IH]; [reflexivity|].
    rewrite transact_balance. exact IH.
Qed.

Lemma contract_keeps_no_funds_witness :
  total_paid (payments tr_secondary) = ARTWORK_PRICE /\
  balance st_resold = 0.
Proof.
  split.
  - refine (proj1 contract_keeps_no_funds (as_ buyer2) 1 ARTWORK_PRICE
              st_handed tt st_resold tr_secondary _).
    vm_compute. reflexivity.
  - apply (proj2 (proj2 contract_keeps_no_funds) st_resold).
    unfold st_resold, st_handed, st_listed, st_gallery.
    repeat apply reachable_transact. apply reachable_deployed.
Defined.

(** *** The platform fee *)

(** The platform fee changes only through [updatePlatformFee] called by
    the administrator with a rate of at most 100; a call by anyone else is
    turned down as unauthorised before the rate is looked at, and the
    administrator is turned down for a rate above 100. *)
Theorem fee_changes_only_by_admin :
  (forall env c st,
     platformFee (fst (transact env c st)) <> platformFee st ->
     msg_sender env = _owner st /\
     exists f, c = UpdatePlatformFee f /\ f <= 100 /\
               platformFee (fst (transact env c st)) = f) /\
  (forall env f st,
     msg_sender env <> _owner st ->
     transact env (UpdatePlatformFee f) st =
       (st, Fail (Error "Ownable: caller is not the owner"))) /\
  (forall env f st,
     msg_sender env = _owner st -> 100 < f ->
     transact env (UpdatePlatformFee f) st =
       (st, Fail (Error "Fee cannot exceed 10%"))) /\
  (forall env f st,
     msg_sender env = _owner st -> f <= 100 ->
     transact env (UpdatePlatformFee f) st =
       (set_platformFee f st, Ok (RNone, [Wrote slot_platformFee]))).
Proof.
  split; [|split; [|split]].
  - intros env c st Hne. revert Hne.
    step_cases env c st E; intros Hne; try (exfalso; apply Hne; reflexivity).
    split; [congruence|]. eauto.
  - intros env f st Hne. apply not_eq_sym, N.eqb_neq in Hne.
    unfold transact, exec, updatePlatformFee, onlyOwner, bind, read, require,
      revert. rewrite Hne. reflexivity.
  - intros env f st He Hf. symmetry in He. apply N.eqb_eq in He.
    apply N.leb_gt in Hf.
    unfold transact, exec, updatePlatformFee, onlyOwner, bind, read, require,
      revert, ret. rewrite He. cbn. rewrite Hf. reflexivity.
  - intros env f st He Hf. symmetry in He. apply N.eqb_eq in He.
    apply N.leb_le in Hf.
    unfold transact, exec, updatePlatformFee, onlyOwner, bind, read, require,
      write, revert, ret. rewrite He. cbn. rewrite Hf. reflexivity.
Qed.

Lemma fee_changes_only_by_admin_witness :
  (msg_sender (as_ admin) = _owner st_sold /\
   exists f, UpdatePlatformFee 30 = UpdatePlatformFee f /\ f <= 100 /\
             platformFee (fst (transact (as_ admin) (UpdatePlatformFee 30)
                                 st_sold)) = f) /\
  transact (as_ artist1) (UpdatePlatformFee 30) st_sold =
    (st_sold, Fail (Error "Ownable: caller is not the owner")) /\
  transact (as_ admin) (UpdatePlatformFee 101) st_sold =
    (st_sold, Fail (Error "Fee cannot exceed 10%")) /\
  transact (as_ admin) (UpdatePlatformFee 30) st_sold =
    (set_platformFee 30 st_sold, Ok (RNone, [Wrote slot_platformFee])).
Proof.
  split; [|split; [|split]].
  - apply (proj1 fee_changes_only_by_admin (as_ admin) (UpdatePlatformFee 30)
             st_sold).
    vm_compute. discriminate.
  - apply (proj1 (proj2 fee_changes_only_by_admin) (as_ artist1) 30 st_sold).
    vm_compute. discriminate.
  - apply (proj1 (proj2 (proj2 fee_changes_only_by_admin)) (as_ admin) 101
             st_sold); vm_compute; reflexivity.
  - apply (proj2 (proj2 (proj2 fee_changes_only_by_admin)) (as_ admin) 30
             st_sold).
    + vm_compute. reflexivity.
    + apply N.leb_le. vm_compute. reflexivity.
Defined.

(** *** Galleries *)

Lemma transact_gallery env c st key :
  isActive (gallery_at st key) = true ->
  isActive (gallery_at (fst (transact env c st)) key) = true /\
  name (gallery_at (fst (transact env c st)) key) = name (gallery_at st key) /\
  curator (gallery_at (fst (transact env c st)) key) =
    curator (gallery_at st key) /\
  description (gallery_at (fst (transact env c st)) key) =
    description (gallery_at st key) /\
  gCreatedAt (gallery_at (fst (transact env c st)) key) =
    gCreatedAt (gallery_at st key) /\
  artworkIds (gallery_at st key) `prefix_of`
    artworkIds (gallery_at (fst (transact env c st)) key).
Proof.
  intros Ha.
  step_cases env c st E; try (repeat split; first [exact Ha | reflexivity]).
  - (* createArtwork *)
    sproj. destruct (decide (galleryId0 = key)) as [->|Hne].
    + rewrite lookup_insert_eq. cbn.
      repeat split; first [assumption | reflexivity | idtac].
      apply prefix_app_r. reflexivity.
    + rewrite lookup_insert_ne by exact Hne.
      repeat split; first [assumption | reflexivity].
  - (* createGallery *)
    sproj. destruct (decide (galleryId0 = key)) as [->|Hne].
    + congruence.
    + rewrite lookup_insert_ne by exact Hne.
      repeat split; first [assumption | reflexivity].
Qed.

Lemma transact_all_gallery txs st key :
  isActive (gallery_at st key) = true ->
  isActive (gallery_at (fst (transact_all txs st)) key) = true /\
  name (gallery_at (fst (transact_all txs st)) key) = name (gallery_at st key) /\
  curator (gallery_at (fst (transact_all txs st)) key) =
    curator (gallery_at st key) /\
  description (gallery_at (fst (transact_all txs st)) key) =
    description (gallery_at st key) /\
  gCreatedAt (gallery_at (fst (transact_all txs st)) key) =
    gCreatedAt (gallery_at st key) /\
  artworkIds (gallery_at st key) `prefix_of`
    artworkIds (gallery_at (fst (transact_all txs st)) key).
Proof.
  revert st. induction txs as [|[env c] rest IH]; intros st Ha.
  - simpl. repeat split; first [exact Ha | reflexivity].
  - rewrite transact_all_cons. cbn [fst].
    destruct (transact_gallery env c st key Ha) as (H1 & H2 & H3 & H4 & H5 & H6).
    destruct (IH _ H1) as (K1 & K2 & K3 & K4 & K5 & K6).
    repeat split; try congruence. etransitivity; eassumption.
Qed.

(** A gallery is for ever: once a key is active, whatever calls follow,
    it stays active with the name, curator, description and creation time
    it has, and its member list only grows at the end. *)
Theorem gallery_is_permanent txs st key :
  isActive (gallery_at st key) = true ->
  isActive (gallery_at (fst (transact_all txs st)) key) = true /\
  name (gallery_at (fst (transact_all txs st)) key) = name (gallery_at st key) /\
  curator (gallery_at (fst (transact_all txs st)) key) =
    curator (gallery_at st key) /\
  description (gallery_at (fst (transact_all txs st)) key) =
    description (gallery_at st key) /\
  gCreatedAt (gallery_at (fst (transact_all txs st)) key) =
    gCreatedAt (gallery_at st key) /\
  artworkIds (gallery_at st key) `prefix_of`
    artworkIds (gallery_at (fst (transact_all txs st)) key).
Proof. apply transact_all_gallery. Qed.

Lemma gallery_is_permanent_witness :
  isActive (gallery_at (fst (transact_all txs_mixed st_gallery)) "test-gallery")
    = true /\
  name (gallery_at (fst (transact_all txs_mixed st_gallery)) "test-gallery") =
    name (gallery_at st_gallery "test-gallery") /\
  curator (gallery_at (fst (transact_all txs_mixed st_gallery)) "test-gallery")
    = curator (gallery_at st_gallery "test-gallery") /\
  description
    (gallery_at (fst (transact_all txs_mixed st_gallery)) "test-gallery") =
    description (gallery_at st_gallery "test-gallery") /\
  gCreatedAt
    (gallery_at (fst (transact_all txs_mixed st_gallery)) "test-gallery") =
    gCreatedAt (gallery_at st_gallery "test-gallery") /\
  artworkIds (gallery_at st_gallery "test-gallery") `prefix_of`
    artworkIds
      (gallery_at (fst (transact_all txs_mixed st_gallery)) "test-gallery").
Proof.
  apply (gallery_is_permanent txs_mixed st_gallery "test-gallery").
  vm_compute. reflexivity.
Defined.

(** A gallery key is taken once: after [createGallery] has returned for
    a key, every later [createGallery] with that key and any non-empty
    name, by any caller and after any other calls, reverts with "Gallery
    ID already exists", and the gallery keeps its first curator. *)
Theorem gallery_key_taken_once env key n d st u st1 tr txs env2 n2 d2 :
  createGallery env key n d st = Ok (u, st1, tr) ->
  String.length n2 <> 0%nat ->
  transact env2 (CreateGallery key n2 d2) (fst (transact_all txs st1)) =
    (fst (transact_all txs st1), Fail (Error "Gallery ID already exists")) /\
  curator (gallery_at (fst (transact_all txs st1)) key) = msg_sender env.
Proof.
  intros H Hn2. apply createGallery_Ok in H. cbv zeta in H.
  destruct H as (Hk & _ & _ & Hst & _).
  assert (Hact : isActive (gallery_at st1 key) = true).
  { subst st1. sproj. rewrite lookup_insert_eq. reflexivity. }
  assert (Hcur : curator (gallery_at st1 key) = msg_sender env).
  { subst st1. sproj. rewrite lookup_insert_eq. reflexivity. }
  clear Hst.
  destruct (transact_all_gallery txs st1 key Hact) as (Ha & _ & Hc & _).
  split; [|congruence].
  apply Nat.eqb_neq in Hk, Hn2.
  unfold transact, exec, createGallery, bind, read, require, revert, ret.
  rewrite Hk, Hn2. cbn. rewrite Ha. reflexivity.
Qed.

Lemma gallery_key_taken_once_witness :
  transact (as_ buyer1) (CreateGallery "test-gallery" "Mine" "")
    (fst (transact_all txs_mixed st_gallery)) =
    (fst (transact_all txs_mixed st_gallery),
     Fail (Error "Gallery ID already exists")) /\
  curator (gallery_at (fst (transact_all txs_mixed st_gallery)) "test-gallery")
    = msg_sender (as_ admin).
Proof.
  refine (gallery_key_taken_once (as_ admin) "test-gallery" "Test Gallery"
            "A gallery for testing" (deployed admin) tt st_gallery
            [Wrote (slot_gallery "test-gallery"); Wrote (slot_userGalleries admin);
             Emitted (GalleryCreated "test-gallery" "Test Gallery" admin)]
            txs_mixed (as_ buyer1) "Mine" "" _ _).
  - vm_compute. reflexivity.
  - vm_compute. discriminate.
Defined.

(** *** Reviews and ratings *)

Lemma transact_reviews_prefix env c st tok :
  reviews_at st tok `prefix_of` reviews_at (fst (transact env c st)) tok.
Proof.
  step_cases env c st E; try reflexivity.
  sproj. destruct (decide (tokenId = tok)) as [->|Hne].
  - rewrite lookup_insert_eq. cbn. apply prefix_app_r. reflexivity.
  - rewrite lookup_insert_ne by exact Hne. reflexivity.
Qed.

(** Reviews are append-only: whatever calls are made, the reviews an
    artwork has stay where they are, unchanged, at the front of its list. *)
Theorem reviews_append_only txs st tok :
  reviews_at st tok `prefix_of` reviews_at (fst (transact_all txs st)) tok.
Proof.
  revert st. induction txs as [|[env c] rest IH]; intros st; [reflexivity|].
  rewrite transact_all_cons. cbn [fst].
  etransitivity; [apply transact_reviews_prefix | apply IH].
Qed.

Lemma transact_reviews_ok env c st :
  reviews_ok st -> reviews_ok (fst (transact env c st)).
Proof.
  intros Hok.
  step_cases env c st E; try exact Hok.
  intros t. destruct (Hok t) as (Hnd & Hin & Hrg). sproj.
  destruct (decide (tokenId = t)) as [->|Hne].
  - rewrite lookup_insert_eq. cbn. rewrite fmap_app. cbn. split; [|split].
    + apply NoDup_app. split; [exact Hnd|]. split; [|apply NoDup_singleton].
      intros w Hw Hw'. apply list_elem_of_singleton in Hw'. subst w.
      apply Hin in Hw. contradiction.
    + intros who. rewrite elem_of_app, list_elem_of_singleton, elem_of_union,
        elem_of_singleton, Hin.
      split; intros [K|K]; auto.
      * left. congruence.
      * right. congruence.
    + apply Forall_app. split; [exact Hrg|]. constructor; [|constructor].
      cbn. lia.
  - rewrite lookup_insert_ne by exact Hne. split; [exact Hnd|]. split.
    + intros who. rewrite Hin, elem_of_union, elem_of_singleton.
      split; [auto|]. intros [K|K]; [congruence|exact K].
    + exact Hrg.
Qed.

Lemma reachable_reviews_ok st : reachable st -> reviews_ok st.
Proof.
  induction 1 as [d|env c st _ IH].
  - intros t. unfold reviews_at, deployed. cbn. rewrite lookup_empty. cbn.
    split; [constructor|]. split; [|constructor].
    intros who. split; intros K; [inversion K | set_solver].
  - apply transact_reviews_ok. exact IH.
Qed.

(** One review per reviewer: in every reachable state the reviews of an
    artwork come from pairwise distinct reviewers, these are exactly the
    identities marked as having rated it, and every stored rating lies
    between 1 and 5. *)
Theorem one_review_per_reviewer st tok :
  reachable st ->
  NoDup (reviewer <$> reviews_at st tok) /\
  (forall who,
     who ∈ (reviewer <$> reviews_at st tok) <-> (tok, who) ∈ hasRated st) /\
  Forall (fun r => 1 <= rating r <= 5) (reviews_at st tok).
Proof. intros Hr. apply reachable_reviews_ok. exact Hr. Qed.

Lemma reachable_st_listed : reachable st_listed.
Proof.
  unfold st_listed, st_gallery.
  repeat apply reachable_transact. apply reachable_deployed.
Defined.

Lemma one_review_per_reviewer_witness :
  NoDup (reviewer <$> reviews_at st_reviewed 1) /\
  (forall who,
     who ∈ (reviewer <$> reviews_at st_reviewed 1) <->
     (1, who) ∈ hasRated st_reviewed) /\
  Forall (fun r => 1 <= rating r <= 5) (reviews_at st_reviewed 1).
Proof.
  apply (one_review_per_reviewer st_reviewed 1).
  unfold st_reviewed. apply reachable_run. exact reachable_st_listed.
Defined.

Lemma sum_ratings_bounds l :
  Forall (fun r => 1 <= rating r <= 5) l ->
  N.of_nat (length l) <= sum_ratings l <= 5 * N.of_nat (length l).
Proof.
  induction 1 as [|r l Hr _ IH]; simpl length; simpl sum_ratings; lia.
Qed.

(** In a reachable state the average that [getArtwork] reports for an
    artwork with at least one review lies between 1 and 5. *)
Theorem average_within_range st tok :
  reachable st -> _exists st tok = true -> reviews_at st tok <> [] ->
  exists v,
    getArtwork tok st = Ok (v, st, []) /\ 1 <= v_avgRating v <= 5.
Proof.
  intros Hr Hex Hne.
  pose proof (reachable_reviews_ok st Hr tok) as (_ & _ & Hrg).
  apply reachable_invariant in Hr. destruct Hr as (_ & _ & Hc).
  destruct (Hc tok) as [Hn Hsum].
  apply sum_ratings_bounds in Hrg.
  assert (Hpos : 0 < N.of_nat (length (reviews_at st tok))).
  { destruct (reviews_at st tok); [congruence | simpl; lia]. }
  eexists. split.
  - unfold getArtwork, bind, read, require, ret. rewrite Hex. reflexivity.
  - cbn [v_avgRating]. rewrite Hn, Hsum.
    destruct (N.ltb_spec 0 (N.of_nat (length (reviews_at st tok)))); [|lia].
    split.
    + apply N.div_le_lower_bound; lia.
    + apply N.Div0.div_le_upper_bound; lia.
Qed.

Lemma average_within_range_witness :
  exists v,
    getArtwork 1 st_reviewed = Ok (v, st_reviewed, []) /\
    1 <= v_avgRating v <= 5.
Proof.
  apply (average_within_range st_reviewed 1).
  - unfold st_reviewed. apply reachable_run. exact reachable_st_listed.
  - vm_compute. reflexivity.
  - vm_compute. discriminate.
Defined.

(** A review that meets the requirements is taken and counted: on an
    existing artwork, a rating from 1 to 5 by a caller who has not rated
    it yet is appended as the last review, and [getArtwork] then reports
    the average over the old ratings and the new one. *)
Theorem review_is_counted env tok c r st :
  _exists st tok = true -> 1 <= r <= 5 ->
  (tok, msg_sender env) ∉ hasRated st ->
  totalRatings (artwork_at st tok) + 1 <= uint256_max ->
  ratingSum (artwork_at st tok) + r <= uint256_max ->
  exists st' tr v,
    addReview env tok c r st = Ok (tt, st', tr) /\
    reviews_at st' tok =
      reviews_at st tok ++ [mkReview (msg_sender env) c r (block_timestamp env)]
    /\
    getArtwork tok st' = Ok (v, st', []) /\
    v_avgRating v =
      (ratingSum (artwork_at st tok) + r) / (totalRatings (artwork_at st tok) + 1).
Proof.
  intros Hex [Hr1 Hr5] Hnew Hc Hs.
  apply N.leb_le in Hr1, Hr5, Hc, Hs.
  unfold addReview, bind, read, require, write, emit, ret, revert,
    checked_add.
  rewrite Hex. cbn. rewrite Hr1, Hr5. cbn.
  unfold hasRated_at at 1. rewrite bool_decide_eq_false_2 by exact Hnew. cbn.
  sproj. rewrite Hc. cbn. rewrite lookup_insert_eq. cbn. rewrite Hs. cbn.
  eexists _, _, _. split; [reflexivity|]. split; [|split].
  - sproj. rewrite lookup_insert_eq. reflexivity.
  - unfold getArtwork, bind, read, require, ret. sproj.
    unfold _exists, _ownerOf in Hex. rewrite Hex. reflexivity.
  - sproj. rewrite !lookup_insert_eq. cbn.
    destruct (N.ltb_spec 0
                (totalRatings (default zeroArtwork (artworks st !! tok)) + 1));
      [reflexivity | lia].
Qed.

Lemma review_is_counted_witness :
  exists st' tr v,
    addReview (as_ admin) 1 "Fine" 5 st_reviewed = Ok (tt, st', tr) /\
    reviews_at st' 1 =
      reviews_at st_reviewed 1 ++
        [mkReview (msg_sender (as_ admin)) "Fine" 5
           (block_timestamp (as_ admin))] /\
    getArtwork 1 st' = Ok (v, st', []) /\
    v_avgRating v =
      (ratingSum (artwork_at st_reviewed 1) + 5) /
      (totalRatings (artwork_at st_reviewed 1) + 1).
Proof.
  apply (review_is_counted (as_ admin) 1 "Fine" 5 st_reviewed).
  - vm_compute. reflexivity.
  - split; apply N.leb_le; vm_compute; reflexivity.
  - apply (bool_decide_unpack _). vm_compute. exact I.
  - apply N.leb_le. vm_compute. reflexivity.
  - apply N.leb_le. vm_compute. reflexivity.
Defined.

(** *** Artworks *)

Lemma transact_stored env c st : stored st -> stored (fst (transact env c st)).
Proof.
  intros Hs. unfold stored in *.
  step_cases env c st E; try exact Hs; intros t Ht; sproj.
  - (* createArtwork *)
    destruct (decide (increment (_tokenIds st) = t)) as [<-|Hne].
    + rewrite lookup_insert_eq. eauto.
    + rewrite lookup_insert_ne in Ht by exact Hne.
      rewrite lookup_insert_ne by exact Hne. apply Hs. exact Ht.
  - (* purchaseArtwork *)
    destruct (decide (tokenId = t)) as [<-|Hne].
    + rewrite lookup_insert_eq. eauto.
    + rewrite lookup_insert_ne in Ht by exact Hne.
      rewrite lookup_insert_ne by exact Hne. apply Hs. exact Ht.
  - (* addReview *)
    destruct (decide (tokenId = t)) as [<-|Hne].
    + rewrite lookup_insert_eq. eauto.
    + rewrite lookup_insert_ne by exact Hne. apply Hs. exact Ht.
  - (* transferFrom *)
    destruct (decide (tokenId = t)) as [<-|Hne].
    + apply Hs. apply negb_true_iff, N.eqb_neq. assumption.
    + rewrite lookup_insert_ne in Ht by exact Hne. apply Hs. exact Ht.
Qed.

Lemma transact_artwork env c st tok a :
  minted st -> artworks st !! tok = Some a ->
  exists a',
    artworks (fst (transact env c st)) !! tok = Some a' /\
    title a' = title a /\ artist a' = artist a /\
    galleryId a' = galleryId a /\
    royaltyPercentage a' = royaltyPercentage a /\
    createdAt a' = createdAt a /\
    totalRatings a <= totalRatings a' /\ ratingSum a <= ratingSum a'.
Proof.
  intros Hm Ha. unfold minted, map_Forall in Hm.
  step_cases env c st E;
    try (exists a; repeat split; first [exact Ha | reflexivity | apply N.le_refl]).
  - (* createArtwork *)
    sproj. exists a.
    assert (Hne : increment (_tokenIds st) <> tok).
    { intros <-. apply Hm in Ha. sproj. congruence. }
    rewrite lookup_insert_ne by exact Hne.
    repeat split; first [exact Ha | reflexivity | apply N.le_refl].
  - (* purchaseArtwork *)
    sproj. destruct (decide (tokenId = tok)) as [->|Hne].
    + rewrite lookup_insert_eq, Ha. cbn. eexists. split; [reflexivity|].
      cbn. repeat split; first [reflexivity | apply N.le_refl].
    + rewrite lookup_insert_ne by exact Hne. exists a.
      repeat split; first [exact Ha | reflexivity | apply N.le_refl].
  - (* addReview *)
    sproj. destruct (decide (tokenId = tok)) as [->|Hne].
    + rewrite lookup_insert_eq, Ha. cbn. eexists. split; [reflexivity|].
      cbn. repeat split; first [reflexivity | lia].
    + rewrite lookup_insert_ne by exact Hne. exists a.
      repeat split; first [exact Ha | reflexivity | apply N.le_refl].
Qed.

(** The terms of an artwork are fixed at its creation: whatever calls
    follow, its title, artist, gallery, royalty percentage and creation
    time stay as they are, and its rating count and rating sum never go
    down. *)
Theorem artwork_terms_are_fixed txs st tok a :
  minted st -> artworks st !! tok = Some a ->
  exists a',
    artworks (fst (transact_all txs st)) !! tok = Some a' /\
    title a' = title a /\ artist a' = artist a /\
    galleryId a' = galleryId a /\
    royaltyPercentage a' = royaltyPercentage a /\
    createdAt a' = createdAt a /\
    totalRatings a <= totalRatings a' /\ ratingSum a <= ratingSum a'.
Proof.
  revert st a. induction txs as [|[env c] rest IH]; intros st a Hm Ha.
  - simpl. exists a.
    repeat split; first [exact Ha | reflexivity | apply N.le_refl].
  - rewrite transact_all_cons. cbn [fst].
    destruct (transact_artwork env c st tok a Hm Ha)
      as (a1 & Ha1 & T1 & A1 & G1 & R1 & C1 & N1 & S1).
    destruct (IH _ a1 (proj1 (transact_listing env c st Hm)) Ha1)
      as (a' & Ha' & T' & A' & G' & R' & C' & N' & S').
    exists a'. repeat split; first [exact Ha' | congruence | lia].
Qed.

Lemma artwork_terms_are_fixed_witness :
  exists a',
    artworks
      (fst (transact_all
              [(as_ buyer1, PurchaseArtwork 1 ARTWORK_PRICE);
               (as_ buyer2, AddReview 1 "Review 2" 2)] st_listed)) !! 1 =
      Some a' /\
    title a' = "Test Art" /\ artist a' = artist1 /\
    galleryId a' = "test-gallery" /\ royaltyPercentage a' = 10 /\
    createdAt a' = 1700000000 /\ 0 <= totalRatings a' /\ 0 <= ratingSum a'.
Proof.
  refine (artwork_terms_are_fixed
            [(as_ buyer1, PurchaseArtwork 1 ARTWORK_PRICE);
             (as_ buyer2, AddReview 1 "Review 2" 2)] st_listed 1
            (mkArtwork "Test Art" artist1 ARTWORK_PRICE true 0 0
               "test-gallery" 10 1700000000) _ _).
  - apply (bool_decide_unpack _). vm_compute. exact I.
  - vm_compute. reflexivity.
Defined.

Lemma exists_insert_same {K} {HE : EqDecision K} {HC : Countable K} {A B} (m : gmap K A) (f : A -> B)
    k a0 a1 tok key :
  m !! k = Some a0 -> f a1 = f a0 ->
  (exists a, <[k := a1]> m !! tok = Some a /\ f a = key) <->
  (exists a, m !! tok = Some a /\ f a = key).
Proof.
  intros Hk Hf. destruct (decide (k = tok)) as [->|Hne].
  - rewrite lookup_insert_eq. split.
    + intros (a & [= <-] & Ha). exists a0. split; [exact Hk | congruence].
    + intros (a & Ha & Hkey). exists a1. split; [reflexivity | congruence].
  - rewrite lookup_insert_ne by exact Hne. reflexivity.
Qed.

Lemma exists_insert_fresh {K} {HE : EqDecision K} {HC : Countable K} {A B} (m : gmap K A) (f : A -> B)
    k a1 tok key :
  m !! k = None ->
  (exists a, <[k := a1]> m !! tok = Some a /\ f a = key) <->
  (tok = k /\ f a1 = key) \/ (exists a, m !! tok = Some a /\ f a = key).
Proof.
  intros Hk. destruct (decide (k = tok)) as [->|Hne].
  - rewrite lookup_insert_eq. split.
    + intros (a & [= <-] & Ha). left. auto.
    + intros [[_ Ha]|(a & Ha & _)]; [eauto | congruence].
  - rewrite lookup_insert_ne by exact Hne. split.
    + intros H. right. exact H.
    + intros [[-> _]|H]; [congruence | exact H].
Qed.

Lemma transact_galleries_active env c st :
  galleries_active st -> galleries_active (fst (transact env c st)).
Proof.
  intros Hg. unfold galleries_active in *.
  step_cases env c st E; try exact Hg; sproj.
  - apply map_Forall_insert_2; [|exact Hg]. cbn. assumption.
  - apply map_Forall_insert_2; [|exact Hg]. reflexivity.
Qed.

(** The stored artwork of a token that passed the checks of a purchase or
    of a review. *)
Lemma for_sale_stored st tok :
  forSale (artwork_at st tok) = true ->
  exists a, artworks st !! tok = Some a.
Proof.
  unfold artwork_at. destruct (artworks st !! tok); [eauto | discriminate].
Qed.

Lemma transact_listings_valid env c st :
  stored st -> listings_valid st -> listings_valid (fst (transact env c st)).
Proof.
  intros Hs Hv. unfold stored, listings_valid, map_Forall in *.
  step_cases env c st E; try exact Hv; intros i a Hi; sproj.
  - (* createArtwork *)
    assert (Hgal : forall key,
      isActive (default zeroGallery (galleries st !! key)) = true ->
      isActive
        (default zeroGallery
           (<[galleryId0 :=
                mkGallery
                  (name (default zeroGallery (galleries st !! galleryId0)))
                  (curator (default zeroGallery (galleries st !! galleryId0)))
                  (artworkIds (default zeroGallery (galleries st !! galleryId0))
                     ++ [increment (_tokenIds st)])
                  (isActive (default zeroGallery (galleries st !! galleryId0)))
                  (description
                     (default zeroGallery (galleries st !! galleryId0)))
                  (gCreatedAt
                     (default zeroGallery (galleries st !! galleryId0)))]>
              (galleries st) !! key)) = true).
    { intros key Hk. destruct (decide (galleryId0 = key)) as [->|Hne].
      - rewrite lookup_insert_eq. exact Hk.
      - rewrite lookup_insert_ne by exact Hne. exact Hk. }
    destruct (decide (increment (_tokenIds st) = i)) as [<-|Hne].
    + rewrite lookup_insert_eq in Hi. injection Hi as <-. cbn.
      repeat split; try assumption. apply Hgal. assumption.
    + rewrite lookup_insert_ne in Hi by exact Hne.
      destruct (Hv i a Hi) as (V1 & V2 & V3 & V4 & V5).
      repeat split; try assumption. apply Hgal. exact V5.
  - (* purchaseArtwork *)
    destruct (decide (tokenId = i)) as [<-|Hne].
    + rewrite lookup_insert_eq in Hi. injection Hi as <-.
      destruct (artworks st !! tokenId) as [a0|] eqn:Ha0; [|discriminate].
      cbn in *. exact (Hv tokenId a0 Ha0).
    + rewrite lookup_insert_ne in Hi by exact Hne. exact (Hv i a Hi).
  - (* createGallery *)
    destruct (Hv i a Hi) as (V1 & V2 & V3 & V4 & V5).
    repeat split; try assumption.
    destruct (decide (galleryId0 = galleryId a)) as [->|Hne].
    + rewrite lookup_insert_eq. reflexivity.
    + rewrite lookup_insert_ne by exact Hne. exact V5.
  - (* addReview *)
    destruct (decide (tokenId = i)) as [<-|Hne].
    + rewrite lookup_insert_eq in Hi. injection Hi as <-.
      destruct (Hs tokenId) as [a0 Ha0]; [assumption|].
      rewrite Ha0 in *. cbn in *. exact (Hv tokenId a0 Ha0).
    + rewrite lookup_insert_ne in Hi by exact Hne. exact (Hv i a Hi).
Qed.

Lemma unminted_not_stored st tok :
  minted st -> _exists st tok = false -> artworks st !! tok = None.
Proof.
  intros Hm Hex. destruct (artworks st !! tok) as [a|] eqn:Ha; [|reflexivity].
  apply Hm in Ha. cbn in Ha. congruence.
Qed.

Lemma transact_gallery_index env c st :
  minted st -> stored st -> galleries_active st ->
  gallery_index_ok st -> gallery_index_ok (fst (transact env c st)).
Proof.
  intros Hm Hs Hg Hok. unfold gallery_index_ok in *.
  step_cases env c st E; try exact Hok; intros key;
    destruct (Hok key) as [Hnd Hin].
  - (* createArtwork *)
    pose proof (unminted_not_stored st _ Hm ltac:(eassumption)) as Hnone.
    sproj.
    assert (Hfresh : forall k,
      increment (_tokenIds st)
        ∉ artworkIds (default zeroGallery (galleries st !! k))).
    { intros k Hk. destruct (Hok k) as [_ Hin']. sproj.
      apply Hin' in Hk. destruct Hk as (a & Ha & _). congruence. }
    destruct (decide (galleryId0 = key)) as [->|Hne].
    + rewrite lookup_insert_eq. cbn. split.
      * apply NoDup_app. split; [exact Hnd|]. split; [|apply NoDup_singleton].
        intros x Hx Hx'. apply list_elem_of_singleton in Hx'. subst x.
        exact (Hfresh key Hx).
      * intros tok.
        rewrite (exists_insert_fresh (artworks st) galleryId _ _ tok key Hnone).
        rewrite elem_of_app, list_elem_of_singleton, Hin. cbn. tauto.
    + rewrite lookup_insert_ne by exact Hne. split; [exact Hnd|].
      intros tok.
      rewrite (exists_insert_fresh (artworks st) galleryId _ _ tok key Hnone).
      rewrite Hin. cbn. split; [auto|]. intros [[_ K]|K]; [congruence|exact K].
  - (* purchaseArtwork *)
    destruct (for_sale_stored st tokenId ltac:(assumption)) as [a0 Ha0].
    sproj. split; [exact Hnd|]. intros tok.
    rewrite (exists_insert_same (artworks st) galleryId tokenId a0 _ tok key Ha0);
      [exact (Hin tok)|].
    rewrite Ha0. reflexivity.
  - (* createGallery *)
    sproj. destruct (decide (galleryId0 = key)) as [->|Hne].
    + rewrite lookup_insert_eq. cbn. split; [constructor|].
      intros tok. split; [intros K; inversion K|].
      intros K. apply Hin in K.
      destruct (galleries st !! key) as [g|] eqn:Hk.
      * apply Hg in Hk. cbn in *. congruence.
      * cbn in K. inversion K.
    + rewrite lookup_insert_ne by exact Hne. split; [exact Hnd | exact Hin].
  - (* addReview *)
    destruct (Hs tokenId ltac:(assumption)) as [a0 Ha0].
    sproj. split; [exact Hnd|]. intros tok.
    rewrite (exists_insert_same (artworks st) galleryId tokenId a0 _ tok key Ha0);
      [exact (Hin tok)|].
    rewrite Ha0. reflexivity.
Qed.

Lemma transact_creator_index env c st :
  minted st -> stored st ->
  creator_index_ok st -> creator_index_ok (fst (transact env c st)).
Proof.
  intros Hm Hs Hok. unfold creator_index_ok in *.
  step_cases env c st E; try exact Hok; intros who;
    destruct (Hok who) as [Hnd Hin].
  - (* createArtwork *)
    pose proof (unminted_not_stored st _ Hm ltac:(eassumption)) as Hnone.
    sproj.
    assert (Hfresh : forall w,
      increment (_tokenIds st) ∉ default [] (userArtworks st !! w)).
    { intros w Hw. destruct (Hok w) as [_ Hin']. sproj.
      apply Hin' in Hw. destruct Hw as (a & Ha & _). congruence. }
    destruct (decide (msg_sender env = who)) as [<-|Hne].
    + rewrite lookup_insert_eq. cbn. split.
      * apply NoDup_app. split; [exact Hnd|]. split; [|apply NoDup_singleton].
        intros x Hx Hx'. apply list_elem_of_singleton in Hx'. subst x.
        exact (Hfresh _ Hx).
      * intros tok.
        rewrite (exists_insert_fresh (artworks st) artist _ _ tok
                   (msg_sender env) Hnone).
        rewrite elem_of_app, list_elem_of_singleton, Hin. cbn. tauto.
    + rewrite lookup_insert_ne by exact Hne. split; [exact Hnd|].
      intros tok.
      rewrite (exists_insert_fresh (artworks st) artist _ _ tok who Hnone).
      rewrite Hin. cbn. split; [auto|]. intros [[_ K]|K]; [congruence|exact K].
  - (* purchaseArtwork *)
    destruct (for_sale_stored st tokenId ltac:(assumption)) as [a0 Ha0].
    sproj. split; [exact Hnd|]. intros tok.
    rewrite (exists_insert_same (artworks st) artist tokenId a0 _ tok who Ha0);
      [exact (Hin tok)|].
    rewrite Ha0. reflexivity.
  - (* addReview *)
    destruct (Hs tokenId ltac:(assumption)) as [a0 Ha0].
    sproj. split; [exact Hnd|]. intros tok.
    rewrite (exists_insert_same (artworks st) artist tokenId a0 _ tok who Ha0);
      [exact (Hin tok)|].
    rewrite Ha0. reflexivity.
Qed.

Lemma transact_fee_bound env c st :
  platformFee st <= 100 -> platformFee (fst (transact env c st)) <= 100.
Proof. intros Hf. step_cases env c st E; try exact Hf. sproj. assumption. Qed.

Lemma reachable_registry st :
  reachable st ->
  platformFee st <= 100 /\ stored st /\ listings_valid st /\
  galleries_active st /\ gallery_index_ok st /\ creator_index_ok st.
Proof.
  induction 1 as [d|env c st Hr (Hf & Hs & Hv & Hg & Hgi & Hci)].
  - split; [cbn; lia|]. split; [intros t Ht; discriminate Ht|].
    split; [apply map_Forall_empty|]. split; [apply map_Forall_empty|].
    split.
    + intros key. unfold gallery_at, deployed. cbn. rewrite lookup_empty. cbn.
      split; [constructor|]. intros tok. rewrite lookup_empty.
      split; [intros K; inversion K | intros (a & K & _); discriminate K].
    + intros who. unfold userArtworks_at, deployed. cbn.
      rewrite lookup_empty. cbn.
      split; [constructor|]. intros tok. rewrite lookup_empty.
      split; [intros K; inversion K | intros (a & K & _); discriminate K].
  - pose proof (reachable_invariant st Hr) as (_ & Hm & _).
    split; [apply transact_fee_bound; exact Hf|].
    split; [apply transact_stored; exact Hs|].
    split; [apply transact_listings_valid; assumption|].
    split; [apply transact_galleries_active; exact Hg|].
    split; [apply transact_gallery_index; assumption|].
    apply transact_creator_index; assumption.
Qed.

(** Every listing stays within the bounds that its creation checked: in
    every reachable state the platform fee is at most 100, and every
    stored artwork belongs to a minted token and has a royalty of at most
    100 percent, a positive price, a non-empty title, a creator other than
    the zero address, and an active gallery. *)
Theorem listings_stay_valid st tok a :
  reachable st -> artworks st !! tok = Some a ->
  platformFee st <= 100 /\ _exists st tok = true /\
  royaltyPercentage a <= 100 /\ 0 < price a /\
  String.length (title a) <> 0%nat /\ artist a <> 0 /\
  isActive (gallery_at st (galleryId a)) = true.
Proof.
  intros Hr Ha.
  pose proof (reachable_invariant st Hr) as (_ & Hm & _).
  pose proof (reachable_registry st Hr) as (Hf & _ & Hv & _).
  split; [exact Hf|]. split; [exact (Hm tok a Ha)|]. exact (Hv tok a Ha).
Qed.

Lemma listings_stay_valid_witness :
  platformFee st_sold <= 100 /\ _exists st_sold 1 = true /\
  royaltyPercentage (with_forSale false (artwork_at st_listed 1)) <= 100 /\
  0 < price (with_forSale false (artwork_at st_listed 1)) /\
  String.length (title (with_forSale false (artwork_at st_listed 1))) <> 0%nat /\
  artist (with_forSale false (artwork_at st_listed 1)) <> 0 /\
  isActive
    (gallery_at st_sold
       (galleryId (with_forSale false (artwork_at st_listed 1)))) = true.
Proof.
  apply (listings_stay_valid st_sold 1).
  - unfold st_sold. apply reachable_transact. exact reachable_st_listed.
  - vm_compute. reflexivity.
Defined.



(** What [getUserArtworks] returns in a reachable state: the tokens of
    the artworks that the identity created, each once, whoever owns them
    now. *)
Theorem user_list_is_creations st who :
  reachable st ->
  exists l,
    getUserArtworks who st = Ok (l, st, []) /\ NoDup l /\
    forall tok,
      tok ∈ l <-> exists a, artworks st !! tok = Some a /\ artist a = who.
Proof.
  intros Hr.
  pose proof (reachable_registry st Hr) as (_ & _ & _ & _ & _ & Hci).
  destruct (Hci who) as [Hnd Hin].
  exists (userArtworks_at st who). split; [reflexivity|]. auto.
Qed.

Lemma user_list_is_creations_witness :
  exists l,
    getUserArtworks artist1 st_sold = Ok (l, st_sold, []) /\ NoDup l /\
    forall tok,
      tok ∈ l <->
      exists a, artworks st_sold !! tok = Some a /\ artist a = artist1.
Proof.
  apply (user_list_is_creations st_sold artist1).
  unfold st_sold. apply reachable_transact. exact reachable_st_listed.
Defined.

(** *** Token ids *)

Lemma exists_insert_holder (owners : gmap N N) k to tok :
  to <> 0 -> negb (default 0 (owners !! k) =? 0) = true ->
  negb (default 0 (<[k := to]> owners !! tok) =? 0) =
    negb (default 0 (owners !! tok) =? 0).
Proof.
  intros Hto Hk. destruct (decide (k = tok)) as [->|Hne].
  - rewrite lookup_insert_eq. cbn. rewrite Hk.
    apply negb_true_iff, N.eqb_neq. exact Hto.
  - rewrite lookup_insert_ne by exact Hne. reflexivity.
Qed.

Lemma transact_ids_dense env c st :
  ids_dense st -> _tokenIds st < uint256_max ->
  ids_dense (fst (transact env c st)) /\
  _tokenIds (fst (transact env c st)) <= _tokenIds st + 1.
Proof.
  intros Hd Hb. unfold ids_dense in *.
  step_cases env c st E; try (split; [exact Hd | cbn; lia]).
  - (* createArtwork *)
    sproj. rewrite increment_small in * by lia. split; [|lia].
    intros tok. destruct (decide (_tokenIds st + 1 = tok)) as [<-|Hne].
    + rewrite lookup_insert_eq. cbn. split; [lia|]. intros _.
      apply negb_true_iff, N.eqb_neq. assumption.
    + rewrite lookup_insert_ne by exact Hne. rewrite (Hd tok). lia.
  - (* purchaseArtwork *)
    sproj. split; [|lia]. intros tok.
    rewrite exists_insert_holder; [apply Hd | assumption |].
    apply negb_true_iff, N.eqb_neq. assumption.
  - (* transferFrom *)
    sproj. split; [|lia]. intros tok.
    rewrite exists_insert_holder; [apply Hd | assumption |].
    apply negb_true_iff, N.eqb_neq. assumption.
Qed.

Lemma transact_all_ids_dense txs st :
  ids_dense st -> _tokenIds st + N.of_nat (length txs) <= uint256_max ->
  ids_dense (fst (transact_all txs st)) /\
  _tokenIds (fst (transact_all txs st)) <= _tokenIds st + N.of_nat (length txs).
Proof.
  revert st. induction txs as [|[env c] rest IH]; intros st Hd Hb.
  - simpl. split; [exact Hd | lia].
  - rewrite transact_all_cons. cbn [fst]. simpl length in *.
    destruct (transact_ids_dense env c st Hd) as [Hd1 Hc1]; [lia|].
    destruct (IH _ Hd1) as [Hd2 Hc2]; [lia|].
    split; [exact Hd2 | lia].
Qed.

(** The tokens in use are the ids from 1 to the counter: after any
    sequence of calls on a freshly deployed contract (short of exhausting
    the 256-bit counter) a token exists exactly when its id lies between 1
    and the current value of the counter; id 0 is never issued and no id
    is ever retired. *)
Theorem ids_are_one_to_counter deployer txs tok :
  N.of_nat (length txs) <= uint256_max ->
  _exists (fst (transact_all txs (deployed deployer))) tok = true <->
  1 <= tok <= _tokenIds (fst (transact_all txs (deployed deployer))).
Proof.
  intros Hb.
  destruct (transact_all_ids_dense txs (deployed deployer)) as [Hd _].
  - intros t. cbn. split; [discriminate | lia].
  - cbn. lia.
  - apply Hd.
Qed.

Lemma ids_are_one_to_counter_witness :
  _exists
    (fst (transact_all
            ((as_ admin,
              CreateGallery "test-gallery" "Test Gallery" "A gallery for testing")
               :: txs_mixed) (deployed admin))) 3 = true <->
  1 <= 3 <=
    _tokenIds
      (fst (transact_all
              ((as_ admin,
                CreateGallery "test-gallery" "Test Gallery"
                  "A gallery for testing") :: txs_mixed) (deployed admin))).
Proof.
  apply (ids_are_one_to_counter admin
           ((as_ admin,
             CreateGallery "test-gallery" "Test Gallery" "A gallery for testing")
              :: txs_mixed) 3).
  apply N.leb_le. vm_compute. reflexivity.
Defined.

(** *** Purchases *)

(** Settle a boolean test of the code from the facts in the context. *)
Ltac test_holds :=
  repeat match goal with
  | |- negb _ = true => apply negb_true_iff
  | |- (_ && _)%bool = true => apply andb_true_intro; split
  | |- (_ =? _) = false => apply N.eqb_neq
  | |- (_ =? _) = true => apply N.eqb_eq
  | |- (_ <=? _) = true => apply N.leb_le
  end;
  first [assumption | congruence | lia].

(** Take the branch of the next test of the code, which holds. *)
Ltac step_true :=
  match goal with
  | |- context [if ?c then _ else _] =>
      let H := fresh in
      assert (H : c = true) by test_holds; rewrite H; clear H; cbn
  end.

Lemma fee_and_royalty_fit v pf r :
  10 * r + pf <= 1000 -> v * pf / 1000 + v * r / 100 <= v.
Proof.
  intros H.
  pose proof (N.Div0.mul_div_le (v * pf) 1000) as H1.
  pose proof (N.Div0.mul_div_le (v * r) 100) as H2.
  assert (H3 : v * (10 * r + pf) <= v * 1000) by (apply N.mul_le_mono_l; lia).
  generalize dependent (v * pf / 1000). generalize dependent (v * r / 100).
  intros roy H2 fee H1.
  rewrite N.mul_add_distr_l in H3.
  rewrite N.mul_assoc, (N.mul_comm v 10), <- N.mul_assoc in H3.
  generalize dependent (v * r). generalize dependent (v * pf). intros. lia.
Qed.

Lemma purchaseArtwork_returns env tok v st :
  _status st = false -> _exists st tok = true ->
  forSale (artwork_at st tok) = true -> price (artwork_at st tok) <= v ->
  msg_sender env <> 0 -> v * 100 <= uint256_max ->
  platformFee st <= 100 -> royaltyPercentage (artwork_at st tok) <= 100 ->
  (_ownerOf st tok = artist (artwork_at st tok) \/
   10 * royaltyPercentage (artwork_at st tok) + platformFee st <= 1000) ->
  accepts env (artist (artwork_at st tok)) = true ->
  accepts env (_owner st) = true ->
  accepts env (_ownerOf st tok) = true ->
  exists st' tr, purchaseArtwork env tok v st = Ok (tt, st', tr).
Proof.
  intros Hs Hex Hfs Hp Hw Hov Hpf Hr Hsplit Ha1 Ha2 Ha3.
  assert (Hm1 : v * platformFee st <= uint256_max).
  { etransitivity; [apply N.mul_le_mono_l; exact Hpf | exact Hov]. }
  assert (Hm2 : v * royaltyPercentage (artwork_at st tok) <= uint256_max).
  { etransitivity; [apply N.mul_le_mono_l; exact Hr | exact Hov]. }
  assert (Hfee : v * platformFee st / 1000 <= v).
  { pose proof (fee_and_royalty_fit v (platformFee st) 0 ltac:(lia)) as H.
    rewrite (N.mul_0_r v), N.Div0.div_0_l, N.add_0_r in H. exact H. }
  unfold purchaseArtwork, nonReentrant, _transfer, ownerOf, bind,
    receive_value, read, require, write, emit, ret, revert, checked_mul,
    checked_sub, transfer.
  sproj. rewrite Hs. cbn. rewrite Hex. cbn. rewrite Hfs. cbn.
  pose proof Hex as Hex'. apply negb_true_iff, N.eqb_neq in Hex'.
  repeat step_true.
  destruct (N.eqb_spec (default 0 (_owners st !! tok))
              (artist (default zeroArtwork (artworks st !! tok)))) as [He|Hne].
  - cbn. remember (v * platformFee st / 1000) as fee eqn:Hf. clear Hf.
    repeat step_true. eexists _, _. reflexivity.
  - destruct Hsplit as [He|Hfit]; [contradiction|].
    apply (fee_and_royalty_fit v) in Hfit.
    cbn. remember (v * platformFee st / 1000) as fee eqn:Hf. clear Hf.
    remember (v * royaltyPercentage (default zeroArtwork (artworks st !! tok))
              / 100) as roy eqn:Hro. clear Hro.
    repeat step_true. eexists _, _. reflexivity.
Qed.

Lemma transact_of_purchase env tok v st u st1 tr :
  purchaseArtwork env tok v st = Ok (u, st1, tr) ->
  transact env (PurchaseArtwork tok v) st = (st1, Ok (RNone, tr)).
Proof.
  intros H. unfold transact, exec, bind, ret. rewrite H.
  rewrite app_nil_r. reflexivity.
Qed.

(** A purchase goes through whenever its requirements hold: for a token
    that exists and is for sale, a payment of at least the price, sent by
    a caller other than the zero address while the three recipients accept
    payments, is never turned down for arithmetic reasons as long as the
    payment times 100 fits 256 bits, the fee rate and the royalty are at
    most 100, and, on a resale, ten times the royalty percentage plus the
    fee rate is at most 1000.  The buyer then owns the token and the
    artwork is off sale at its old price. *)
Theorem purchase_goes_through env tok v st :
  _status st = false -> _exists st tok = true ->
  forSale (artwork_at st tok) = true -> price (artwork_at st tok) <= v ->
  msg_sender env <> 0 -> v * 100 <= uint256_max ->
  platformFee st <= 100 -> royaltyPercentage (artwork_at st tok) <= 100 ->
  (_ownerOf st tok = artist (artwork_at st tok) \/
   10 * royaltyPercentage (artwork_at st tok) + platformFee st <= 1000) ->
  accepts env (artist (artwork_at st tok)) = true ->
  accepts env (_owner st) = true ->
  accepts env (_ownerOf st tok) = true ->
  exists st' tr,
    purchaseArtwork env tok v st = Ok (tt, st', tr) /\
    _ownerOf st' tok = msg_sender env /\
    forSale (artwork_at st' tok) = false /\
    price (artwork_at st' tok) = price (artwork_at st tok).
Proof.
  intros Hs Hex Hfs Hp Hw Hov Hpf Hr Hsplit Ha1 Ha2 Ha3.
  destruct (purchaseArtwork_returns env tok v st) as (st' & tr & H);
    try assumption.
  exists st', tr. split; [exact H|].
  apply purchaseArtwork_Ok in H. cbv zeta in H.
  destruct H as (_ & _ & _ & _ & _ & _ & _ & -> & _).
  sproj. rewrite !lookup_insert_eq. cbn. auto.
Qed.

Lemma purchase_goes_through_witness :
  exists st' tr,
    purchaseArtwork (as_ buyer2) 1 ARTWORK_PRICE st_handed = Ok (tt, st', tr) /\
    _ownerOf st' 1 = msg_sender (as_ buyer2) /\
    forSale (artwork_at st' 1) = false /\
    price (artwork_at st' 1) = price (artwork_at st_handed 1).
Proof.
  apply (purchase_goes_through (as_ buyer2) 1 ARTWORK_PRICE st_handed).
  - vm_compute. reflexivity.
  - vm_compute. reflexivity.
  - vm_compute. reflexivity.
  - apply N.leb_le. vm_compute. reflexivity.
  - vm_compute. discriminate.
  - apply N.leb_le. vm_compute. reflexivity.
  - apply N.leb_le. vm_compute. reflexivity.
  - apply N.leb_le. vm_compute. reflexivity.
  - right. apply N.leb_le. vm_compute. reflexivity.
  - reflexivity.
  - reflexivity.
  - reflexivity.
Defined.

(** What a purchase that returns leaves alone in the storage modelled
    here: it makes the caller the owner of the token and takes the artwork
    off sale; the other fields of that artwork, the owner and the artwork
    of every other token, the galleries, reviews, rating marks, both
    per-user indexes, the token URIs, the id counter, the fee rate, the
    administrator, the guard flag and the ether held by the contract are
    as before.  The approval of the token and the number of tokens per
    holder, which the inherited [_transfer] also updates, are not part of
    [State]; nothing is said about them. *)
Theorem purchase_frame env tok v st u st' tr :
  purchaseArtwork env tok v st = Ok (u, st', tr) ->
  _ownerOf st' tok = msg_sender env /\
  artwork_at st' tok = with_forSale false (artwork_at st tok) /\
  (forall t, t <> tok ->
     _ownerOf st' t = _ownerOf st t /\ artworks st' !! t = artworks st !! t) /\
  galleries st' = galleries st /\ reviews st' = reviews st /\
  hasRated st' = hasRated st /\ userArtworks st' = userArtworks st /\
  userGalleries st' = userGalleries st /\ _tokenURIs st' = _tokenURIs st /\
  _tokenIds st' = _tokenIds st /\ platformFee st' = platformFee st /\
  _owner st' = _owner st /\ _status st' = _status st /\
  balance st' = balance st.
Proof.
  intros H. apply purchaseArtwork_Ok in H. cbv zeta in H.
  destruct H as (Hs & _ & _ & _ & _ & _ & _ & -> & _).
  sproj. rewrite !lookup_insert_eq. cbn.
  repeat split; try reflexivity.
  - rewrite lookup_insert_ne by congruence. reflexivity.
  - rewrite lookup_insert_ne by congruence. reflexivity.
Qed.

Lemma purchase_frame_witness :
  _ownerOf st_sold 1 = msg_sender (as_ buyer1) /\
  artwork_at st_sold 1 = with_forSale false (artwork_at st_listed 1) /\
  (forall t, t <> 1 ->
     _ownerOf st_sold t = _ownerOf st_listed t /\
     artworks st_sold !! t = artworks st_listed !! t) /\
  galleries st_sold = galleries st_listed /\
  reviews st_sold = reviews st_listed /\
  hasRated st_sold = hasRated st_listed /\
  userArtworks st_sold = userArtworks st_listed /\
  userGalleries st_sold = userGalleries st_listed /\
  _tokenURIs st_sold = _tokenURIs st_listed /\
  _tokenIds st_sold = _tokenIds st_listed /\
  platformFee st_sold = platformFee st_listed /\
  _owner st_sold = _owner st_listed /\ _status st_sold = _status st_listed /\
  balance st_sold = balance st_listed.
Proof.
  refine (purchase_frame (as_ buyer1) 1 ARTWORK_PRICE
            st_listed tt st_sold tr_primary _).
  vm_compute. reflexivity.
Defined.

Lemma transact_all_status txs st :
  _status st = false -> _status (fst (transact_all txs st)) = false.
Proof.
  revert st. induction txs as [|[env c] rest IH]; intros st Hs; [exact Hs|].
  rewrite transact_all_cons. cbn [fst]. apply IH, transact_status, Hs.
Qed.

Lemma transact_all_exists txs st tok :
  _exists st tok = true -> _exists (fst (transact_all txs st)) tok = true.
Proof.
  revert st. induction txs as [|[env c] rest IH]; intros st Hs; [exact Hs|].
  rewrite transact_all_cons. cbn [fst]. apply IH, transact_exists, Hs.
Qed.

Lemma transact_all_off_sale txs st tok a :
  minted st -> artworks st !! tok = Some a -> forSale a = false ->
  exists a',
    artworks (fst (transact_all txs st)) !! tok = Some a' /\
    forSale a' = false.
Proof.
  revert st a. induction txs as [|[env c] rest IH]; intros st a Hm Ha Hf.
  - simpl. eauto.
  - rewrite transact_all_cons. cbn [fst].
    destruct (transact_listing env c st Hm) as (Hm1 & Hkeep & _).
    destruct (Hkeep tok a Ha) as (a1 & Ha1 & _ & Hf1).
    exact (IH _ a1 Hm1 Ha1 (Hf1 Hf)).
Qed.

Lemma purchaseArtwork_off_sale env tok v st :
  _status st = false -> _exists st tok = true ->
  forSale (artwork_at st tok) = false ->
  purchaseArtwork env tok v st = Fail NotForSale.
Proof.
  intros Hs Hex Hfs.
  unfold purchaseArtwork, nonReentrant, bind, receive_value, read, require,
    write, ret, revert.
  sproj. rewrite Hs. cbn. rewrite Hex. cbn. rewrite Hfs. reflexivity.
Qed.

(** A token is sold at most once: after a purchase of it has returned,
    every later [purchaseArtwork] of that token, by any caller with any
    payment and after any other calls, reverts with "Artwork is not for
    sale" and changes nothing. *)
Theorem sold_at_most_once env tok v st u st1 tr txs env2 v2 :
  minted st ->
  purchaseArtwork env tok v st = Ok (u, st1, tr) ->
  transact env2 (PurchaseArtwork tok v2) (fst (transact_all txs st1)) =
    (fst (transact_all txs st1), Fail NotForSale).
Proof.
  intros Hm H.
  pose proof (transact_of_purchase _ _ _ _ _ _ _ H) as Ht.
  assert (Hm1 : minted st1).
  { pose proof (proj1 (transact_listing env (PurchaseArtwork tok v) st Hm)) as K.
    rewrite Ht in K. exact K. }
  apply purchaseArtwork_Ok in H. cbv zeta in H.
  destruct H as (Hs & Hsel & _ & _ & Hw & _ & _ & Hst & _).
  assert (Hs1 : _status st1 = false) by (subst st1; exact Hs).
  assert (Hex1 : _exists st1 tok = true).
  { subst st1. sproj. rewrite lookup_insert_eq. cbn.
    apply negb_true_iff, N.eqb_neq. exact Hw. }
  assert (Ha1 : exists a1, artworks st1 !! tok = Some a1 /\ forSale a1 = false).
  { subst st1. sproj. rewrite lookup_insert_eq. eauto. }
  clear Hst. destruct Ha1 as (a1 & Ha1 & Hf1).
  destruct (transact_all_off_sale txs st1 tok a1 Hm1 Ha1 Hf1) as (a' & Ha' & Hf').
  assert (E : purchaseArtwork env2 tok v2 (fst (transact_all txs st1)) =
              Fail NotForSale).
  { apply purchaseArtwork_off_sale.
    - apply transact_all_status. exact Hs1.
    - apply transact_all_exists. exact Hex1.
    - unfold artwork_at. rewrite Ha'. exact Hf'. }
  unfold transact, exec. rewrite (bind_Fail _ _ _ _ E). reflexivity.
Qed.

Lemma sold_at_most_once_witness :
  transact (as_ buyer2) (PurchaseArtwork 1 (3 * ARTWORK_PRICE))
    (fst (transact_all [(as_ buyer1, AddReview 1 "Mine now" 5)] st_sold)) =
    (fst (transact_all [(as_ buyer1, AddReview 1 "Mine now" 5)] st_sold),
     Fail NotForSale).
Proof.
  refine (sold_at_most_once (as_ buyer1) 1 ARTWORK_PRICE st_listed tt st_sold
            tr_primary [(as_ buyer1, AddReview 1 "Mine now" 5)] (as_ buyer2)
            (3 * ARTWORK_PRICE) _ _).
  - apply (bool_decide_unpack _). vm_compute. exact I.
  - vm_compute. reflexivity.
Defined.

(** The checks of a purchase before it looks at the listing: a token
    that does not exist is turned down with "Artwork does not exist"
    whatever is paid, and a payment below the price of an artwork that is
    for sale with "Insufficient payment"; nothing changes either way. *)
Theorem purchase_is_rejected env tok v st :
  _status st = false ->
  (_exists st tok = false ->
   transact env (PurchaseArtwork tok v) st = (st, Fail NotFound)) /\
  (_exists st tok = true -> forSale (artwork_at st tok) = true ->
   v < price (artwork_at st tok) ->
   transact env (PurchaseArtwork tok v) st = (st, Fail InsufficientPayment)).
Proof.
  intros Hs. split.
  - intros Hex. unfold transact, exec.
    rewrite (bind_Fail _ _ _ _ (purchase_unknown env tok v st Hs Hex)).
    reflexivity.
  - intros Hex Hfs Hv. unfold transact, exec.
    rewrite (bind_Fail _ _ _ _ (purchase_underpaid env tok v st Hs Hex Hfs Hv)).
    reflexivity.
Qed.

Lemma purchase_is_rejected_witness :
  transact (as_ buyer1) (PurchaseArtwork 7 ARTWORK_PRICE) st_listed =
    (st_listed, Fail NotFound) /\
  transact (as_ buyer1) (PurchaseArtwork 1 500000000000000000) st_listed =
    (st_listed, Fail InsufficientPayment).
Proof.
  split.
  - apply (proj1 (purchase_is_rejected (as_ buyer1) 7 ARTWORK_PRICE st_listed
                    eq_refl)).
    vm_compute. reflexivity.
  - apply (proj2 (purchase_is_rejected (as_ buyer1) 1 500000000000000000
                    st_listed eq_refl)).
    + vm_compute. reflexivity.
    + vm_compute. reflexivity.
    + apply N.ltb_lt. vm_compute. reflexivity.
Defined.

(** *** Creations *)

(** A creation whose requirements hold returns the next id, and what was
    created can be read back: [getArtwork] reports the title, the caller
    as artist, the price, for sale, an average rating of 0, the gallery
    and the royalty; the caller owns the token; and the id is the last
    entry of the gallery's list and of the caller's list. *)
Theorem creation_round_trip env t u p g r st :
  _status st = false -> msg_sender env <> 0 ->
  _exists st (increment (_tokenIds st)) = false ->
  String.length t <> 0%nat -> 0 < p ->
  isActive (gallery_at st g) = true -> r <= 100 ->
  exists st' tr,
    createArtwork env t u p g r st = Ok (increment (_tokenIds st), st', tr) /\
    getArtwork (increment (_tokenIds st)) st' =
      Ok (mkView t (msg_sender env) p true 0 g r, st', []) /\
    _ownerOf st' (increment (_tokenIds st)) = msg_sender env /\
    getGalleryArtworks g st' =
      Ok (artworkIds (gallery_at st g) ++ [increment (_tokenIds st)], st', []) /\
    getUserArtworks (msg_sender env) st' =
      Ok (userArtworks_at st (msg_sender env) ++ [increment (_tokenIds st)],
          st', []).
Proof.
  intros Hs Hw Hex Ht Hp Hg Hr.
  destruct (createArtwork_returns env t u p g r st) as (st' & tr & H & _);
    try assumption.
  exists st', tr. split; [exact H|].
  apply createArtwork_Ok in H. cbv zeta in H.
  destruct H as (_ & _ & _ & _ & _ & _ & _ & _ & -> & _).
  apply N.eqb_neq in Hw.
  unfold getArtwork, getGalleryArtworks, getUserArtworks, bind, read, require,
    ret.
  sproj.
  repeat first [rewrite lookup_insert_eq | rewrite Hw | rewrite Hg
               | progress cbn].
  auto.
Qed.

Lemma creation_round_trip_witness :
  exists st' tr,
    createArtwork (as_ buyer2) "Second" "ipfs://Qm2" 7 "test-gallery" 0
      st_listed = Ok (increment (_tokenIds st_listed), st', tr) /\
    getArtwork (increment (_tokenIds st_listed)) st' =
      Ok (mkView "Second" (msg_sender (as_ buyer2)) 7 true 0 "test-gallery" 0,
          st', []) /\
    _ownerOf st' (increment (_tokenIds st_listed)) = msg_sender (as_ buyer2) /\
    getGalleryArtworks "test-gallery" st' =
      Ok (artworkIds (gallery_at st_listed "test-gallery") ++
            [increment (_tokenIds st_listed)], st', []) /\
    getUserArtworks (msg_sender (as_ buyer2)) st' =
      Ok (userArtworks_at st_listed (msg_sender (as_ buyer2)) ++
            [increment (_tokenIds st_listed)], st', []).
Proof.
  apply (creation_round_trip (as_ buyer2) "Second" "ipfs://Qm2" 7
           "test-gallery" 0 st_listed).
  - vm_compute. reflexivity.
  - vm_compute. discriminate.
  - vm_compute. reflexivity.
  - vm_compute. discriminate.
  - apply N.ltb_lt. vm_compute. reflexivity.
  - vm_compute. reflexivity.
  - apply N.leb_le. vm_compute. reflexivity.
Defined.

(** The requirements of a creation are checked in this order, and a
    creation that fails one of them changes nothing: an empty title, then
    a price of 0, then a gallery that is not active, then a royalty above
    100 percent. *)
Theorem creation_is_rejected env t u p g r st :
  _status st = false ->
  (String.length t = 0%nat ->
   transact env (CreateArtwork t u p g r) st =
     (st, Fail (Error "Title cannot be empty"))) /\
  (String.length t <> 0%nat -> p = 0 ->
   transact env (CreateArtwork t u p g r) st =
     (st, Fail (Error "Price must be greater than 0"))) /\
  (String.length t <> 0%nat -> 0 < p -> isActive (gallery_at st g) = false ->
   transact env (CreateArtwork t u p g r) st =
     (st, Fail (Error "Gallery does not exist"))) /\
  (String.length t <> 0%nat -> 0 < p -> isActive (gallery_at st g) = true ->
   100 < r ->
   transact env (CreateArtwork t u p g r) st =
     (st, Fail (Error "Royalty percentage cannot exceed 100"))).
Proof.
  intros Hs.
  unfold transact, exec, createArtwork, nonReentrant, bind, read, require,
    write, ret, revert.
  rewrite Hs. cbn.
  split; [|split; [|split]].
  - intros Ht. apply Nat.eqb_eq in Ht. rewrite Ht. reflexivity.
  - intros Ht ->. apply Nat.eqb_neq in Ht. rewrite Ht. reflexivity.
  - intros Ht Hp Hg. apply Nat.eqb_neq in Ht. apply N.ltb_lt in Hp.
    rewrite Ht, Hp. cbn. unfold gallery_at in Hg. sproj. rewrite Hg.
    reflexivity.
  - intros Ht Hp Hg Hr. apply Nat.eqb_neq in Ht. apply N.ltb_lt in Hp.
    apply N.leb_gt in Hr.
    rewrite Ht, Hp. cbn. unfold gallery_at in Hg. sproj. rewrite Hg. cbn.
    rewrite Hr. reflexivity.
Qed.

Lemma creation_is_rejected_witness :
  transact (as_ artist1) (CreateArtwork "" "ipfs://Qm" 0 "nowhere" 101)
    st_gallery = (st_gallery, Fail (Error "Title cannot be empty")) /\
  transact (as_ artist1) (CreateArtwork "Test" "ipfs://QmTest" 0 "nowhere" 101)
    st_gallery = (st_gallery, Fail (Error "Price must be greater than 0")) /\
  transact (as_ artist1) (CreateArtwork "Test" "ipfs://QmTest" 5 "nowhere" 101)
    st_gallery = (st_gallery, Fail (Error "Gallery does not exist")) /\
  transact (as_ artist1)
    (CreateArtwork "Test" "ipfs://QmTest" 5 "test-gallery" 101) st_gallery =
    (st_gallery, Fail (Error "Royalty percentage cannot exceed 100")).
Proof.
  split; [|split; [|split]].
  - apply (proj1 (creation_is_rejected (as_ artist1) "" "ipfs://Qm" 0
                    "nowhere" 101 st_gallery eq_refl)).
    reflexivity.
  - apply (proj1 (proj2 (creation_is_rejected (as_ artist1) "Test"
                           "ipfs://QmTest" 0 "nowhere" 101 st_gallery eq_refl))).
    + vm_compute. discriminate.
    + reflexivity.
  - apply (proj1 (proj2 (proj2 (creation_is_rejected (as_ artist1) "Test"
                                  "ipfs://QmTest" 5 "nowhere" 101 st_gallery
                                  eq_refl)))).
    + vm_compute. discriminate.
    + apply N.ltb_lt. vm_compute. reflexivity.
    + vm_compute. reflexivity.
  - apply (proj2 (proj2 (proj2 (creation_is_rejected (as_ artist1) "Test"
                                  "ipfs://QmTest" 5 "test-gallery" 101
                                  st_gallery eq_refl)))).
    + vm_compute. discriminate.
    + apply N.ltb_lt. vm_compute. reflexivity.
    + vm_compute. reflexivity.
    + apply N.ltb_lt. vm_compute. reflexivity.
Defined.

(** *** The IPFS gateway helper *)

(** [getIPFSUrl] maps a content reference to its gateway address: a
    reference of the form [ipfs://h], as the creation form builds it, and
    the bare [h] itself (when non-empty and not of that form) both give
    the gateway prefix followed by [h]; exactly one leading [ipfs://] is
    removed; a missing or empty reference gives the empty string, and
    every other result starts with the gateway prefix. *)
Theorem getIPFSUrl_gateway :
  getIPFSUrl None = "" /\ getIPFSUrl (Some "") = "" /\
  (forall h, getIPFSUrl (Some ("ipfs://" +:+ h)) = "https://ipfs.io/ipfs/" +:+ h) /\
  (forall h, h <> "" -> startsWith h "ipfs://" = false ->
             getIPFSUrl (Some h) = "https://ipfs.io/ipfs/" +:+ h) /\
  (forall h, h <> "" ->
             startsWith (getIPFSUrl (Some h)) "https://ipfs.io/ipfs/" = true).
Proof.
  split; [reflexivity|]. split; [reflexivity|].
  assert (Hb : forall h,
    getIPFSUrl (Some ("ipfs://" +:+ h)) = "https://ipfs.io/ipfs/" +:+ h)
    by (intros h; reflexivity).
  assert (Hc : forall h, h <> "" -> startsWith h "ipfs://" = false ->
    getIPFSUrl (Some h) = "https://ipfs.io/ipfs/" +:+ h).
  { intros h Hne Hs. unfold getIPFSUrl.
    apply String.eqb_neq in Hne. rewrite Hne, Hs. reflexivity. }
  split; [exact Hb|]. split; [exact Hc|].
  intros h Hne. unfold getIPFSUrl.
  apply String.eqb_neq in Hne. rewrite Hne.
  destruct (startsWith h "ipfs://"); reflexivity.
Qed.

Lemma getIPFSUrl_gateway_witness :
  getIPFSUrl (Some "QmTest") = "https://ipfs.io/ipfs/QmTest" /\
  getIPFSUrl (Some "ipfs://QmTest") = "https://ipfs.io/ipfs/QmTest" /\
  getIPFSUrl (Some "ipfs://ipfs://QmTest") =
    "https://ipfs.io/ipfs/ipfs://QmTest" /\
  startsWith (getIPFSUrl (Some "a/ipfs://b")) "https://ipfs.io/ipfs/" = true.
Proof.
  split; [|split; [|split]].
  - apply (proj1 (proj2 (proj2 (proj2 getIPFSUrl_gateway))) "QmTest");
      [discriminate | reflexivity].
  - apply (proj1 (proj2 (proj2 getIPFSUrl_gateway)) "QmTest").
  - apply (proj1 (proj2 (proj2 getIPFSUrl_gateway)) "ipfs://QmTest").
  - apply (proj2 (proj2 (proj2 (proj2 getIPFSUrl_gateway))) "a/ipfs://b").
    discriminate.
Defined.

(** *** More on galleries *)

Lemma inactive_not_stored st key :
  galleries_active st -> isActive (gallery_at st key) = false ->
  galleries st !! key = None.
Proof.
  intros Hg Hk. unfold gallery_at in Hk.
  destruct (galleries st !! key) as [g|] eqn:E; [|reflexivity].
  apply Hg in E. cbn in *. congruence.
Qed.

Lemma transact_curator_index env c st :
  galleries_active st ->
  curator_index_ok st -> curator_index_ok (fst (transact env c st)).
Proof.
  intros Hg Hok. unfold curator_index_ok in *.
  step_cases env c st E; try exact Hok; intros who;
    destruct (Hok who) as [Hnd Hin].
  - (* createArtwork *)
    assert (Hsome : exists g0, galleries st !! galleryId0 = Some g0).
    { unfold gallery_at in *.
      destruct (galleries st !! galleryId0); [eauto | discriminate]. }
    destruct Hsome as [g0 Hg0].
    sproj. split; [exact Hnd|]. intros key.
    rewrite (exists_insert_same (galleries st) curator galleryId0 g0 _ key who
               Hg0); [exact (Hin key)|].
    rewrite Hg0. reflexivity.
  - (* createGallery *)
    pose proof (inactive_not_stored st _ Hg ltac:(eassumption)) as Hnone.
    sproj.
    assert (Hfresh : forall w,
      galleryId0 ∉ default [] (userGalleries st !! w)).
    { intros w Hw. destruct (Hok w) as [_ Hin']. sproj.
      apply Hin' in Hw. destruct Hw as (g & Hgk & _). congruence. }
    destruct (decide (msg_sender env = who)) as [<-|Hne].
    + rewrite lookup_insert_eq. cbn. split.
      * apply NoDup_app. split; [exact Hnd|]. split; [|apply NoDup_singleton].
        intros x Hx Hx'. apply list_elem_of_singleton in Hx'. subst x.
        exact (Hfresh _ Hx).
      * intros key.
        rewrite (exists_insert_fresh (galleries st) curator _ _ key
                   (msg_sender env) Hnone).
        rewrite elem_of_app, list_elem_of_singleton, Hin. cbn. tauto.
    + rewrite lookup_insert_ne by exact Hne. split; [exact Hnd|].
      intros key.
      rewrite (exists_insert_fresh (galleries st) curator _ _ key who Hnone).
      rewrite Hin. cbn. split; [auto|]. intros [[_ K]|K]; [congruence|exact K].
Qed.

Lemma reachable_curator_index st : reachable st -> curator_index_ok st.
Proof.
  induction 1 as [d|env c st Hr IH].
  - intros who. unfold userGalleries_at, deployed. cbn.
    rewrite lookup_empty. cbn.
    split; [constructor|]. intros key. rewrite lookup_empty.
    split; [intros K; inversion K | intros (g & K & _); discriminate K].
  - apply transact_curator_index; [|exact IH].
    apply reachable_registry. exact Hr.
Qed.

(** What [getUserGalleries] returns in a reachable state: the keys of
    the galleries that the identity curates, each once. *)
Theorem user_galleries_are_curated st who :
  reachable st ->
  exists l,
    getUserGalleries who st = Ok (l, st, []) /\ NoDup l /\
    forall key,
      key ∈ l <-> exists g, galleries st !! key = Some g /\ curator g = who.
Proof.
  intros Hr. destruct (reachable_curator_index st Hr who) as [Hnd Hin].
  exists (userGalleries_at st who). split; [reflexivity|]. auto.
Qed.

Lemma user_galleries_are_curated_witness :
  exists l,
    getUserGalleries admin st_listed = Ok (l, st_listed, []) /\ NoDup l /\
    forall key,
      key ∈ l <->
      exists g, galleries st_listed !! key = Some g /\ curator g = admin.
Proof.
  apply (user_galleries_are_curated st_listed admin).
  exact reachable_st_listed.
Defined.

(** Creating a gallery: an empty key is turned down first, then an empty
    name; a key that is not active yet, with a non-empty name, gives a
    gallery curated by the caller with no members, which reads back as an
    empty list and is the last entry of the caller's gallery list. *)
Theorem gallery_creation env key n d st :
  (String.length key = 0%nat ->
   transact env (CreateGallery key n d) st =
     (st, Fail (Error "Gallery ID cannot be empty"))) /\
  (String.length key <> 0%nat -> String.length n = 0%nat ->
   transact env (CreateGallery key n d) st =
     (st, Fail (Error "Gallery name cannot be empty"))) /\
  (String.length key <> 0%nat -> String.length n <> 0%nat ->
   isActive (gallery_at st key) = false ->
   exists st' tr,
     createGallery env key n d st = Ok (tt, st', tr) /\
     gallery_at st' key =
       mkGallery n (msg_sender env) [] true d (block_timestamp env) /\
     getGalleryArtworks key st' = Ok ([], st', []) /\
     getUserGalleries (msg_sender env) st' =
       Ok (userGalleries_at st (msg_sender env) ++ [key], st', []) /\
     tr = [Wrote (slot_gallery key); Wrote (slot_userGalleries (msg_sender env));
           Emitted (GalleryCreated key n (msg_sender env))]).
Proof.
  split; [|split].
  - intros Hk. apply Nat.eqb_eq in Hk.
    unfold transact, exec, createGallery, bind, require, revert.
    rewrite Hk. reflexivity.
  - intros Hk Hn. apply Nat.eqb_neq in Hk. apply Nat.eqb_eq in Hn.
    unfold transact, exec, createGallery, bind, require, revert, ret.
    rewrite Hk. cbn. rewrite Hn. reflexivity.
  - intros Hk Hn Ha. apply Nat.eqb_neq in Hk, Hn.
    unfold createGallery, getGalleryArtworks, getUserGalleries, bind, read,
      require, write, emit, revert, ret.
    rewrite Hk, Hn. cbn. rewrite Ha. cbn.
    eexists _, _. split; [reflexivity|].
    sproj.
    repeat first [rewrite lookup_insert_eq | progress cbn].
    auto.
Qed.

Lemma gallery_creation_witness :
  transact (as_ buyer1) (CreateGallery "" "" "d") st_gallery =
    (st_gallery, Fail (Error "Gallery ID cannot be empty")) /\
  transact (as_ buyer1) (CreateGallery "moderns" "" "d") st_gallery =
    (st_gallery, Fail (Error "Gallery name cannot be empty")) /\
  exists st' tr,
    createGallery (as_ buyer1) "moderns" "Moderns" "d" st_gallery =
      Ok (tt, st', tr) /\
    gallery_at st' "moderns" =
      mkGallery "Moderns" (msg_sender (as_ buyer1)) [] true "d"
        (block_timestamp (as_ buyer1)) /\
    getGalleryArtworks "moderns" st' = Ok ([], st', []) /\
    getUserGalleries (msg_sender (as_ buyer1)) st' =
      Ok (userGalleries_at st_gallery (msg_sender (as_ buyer1)) ++ ["moderns"],
          st', []) /\
    tr = [Wrote (slot_gallery "moderns");
          Wrote (slot_userGalleries (msg_sender (as_ buyer1)));
          Emitted (GalleryCreated "moderns" "Moderns"
                     (msg_sender (as_ buyer1)))].
Proof.
  split; [|split].
  - apply (proj1 (gallery_creation (as_ buyer1) "" "" "d" st_gallery)).
    reflexivity.
  - apply (proj1 (proj2 (gallery_creation (as_ buyer1) "moderns" "" "d"
                           st_gallery))).
    + vm_compute. discriminate.
    + reflexivity.
  - apply (proj2 (proj2 (gallery_creation (as_ buyer1) "moderns" "Moderns" "d"
                           st_gallery))).
    + vm_compute. discriminate.
    + vm_compute. discriminate.
    + vm_compute. reflexivity.
Defined.

(** *** Unknown tokens, and the fee in force *)

Lemma average_of_reviews_witness :
  exists v,
    getArtwork 1 st_reviewed = Ok (v, st_reviewed, []) /\
    v_avgRating v =
      match reviews_at st_reviewed 1 with
      | [] => 0
      | l => sum_ratings l / N.of_nat (length l)
      end.
Proof.
  apply (average_of_reviews st_reviewed 1).
  - unfold st_reviewed. apply reachable_run. exact reachable_st_listed.
  - vm_compute. reflexivity.
Defined.

(** A token id that was never issued is turned down by every function
    that takes one, before anything else is looked at: [getArtwork],
    [addReview] (even with a rating out of range) and, with the guard
    free, [purchaseArtwork] (whatever is paid) all revert with "Artwork
    does not exist". *)
Theorem unknown_token_is_rejected env tok st :
  _exists st tok = false ->
  getArtwork tok st = Fail NotFound /\
  (forall c r, transact env (AddReview tok c r) st = (st, Fail NotFound)) /\
  (_status st = false ->
   forall v, transact env (PurchaseArtwork tok v) st = (st, Fail NotFound)).
Proof.
  intros Hex. split; [|split].
  - unfold getArtwork, bind, read, require, revert. rewrite Hex. reflexivity.
  - intros c r.
    unfold transact, exec, addReview, bind, read, require, revert.
    rewrite Hex. reflexivity.
  - intros Hs v. unfold transact, exec.
    rewrite (bind_Fail _ _ _ _ (purchase_unknown env tok v st Hs Hex)).
    reflexivity.
Qed.

Lemma unknown_token_is_rejected_witness :
  getArtwork 0 st_listed = Fail NotFound /\
  (forall c r,
     transact (as_ buyer1) (AddReview 0 c r) st_listed =
       (st_listed, Fail NotFound)) /\
  (_status st_listed = false ->
   forall v,
     transact (as_ buyer1) (PurchaseArtwork 0 v) st_listed =
       (st_listed, Fail NotFound)).
Proof.
  apply (unknown_token_is_rejected (as_ buyer1) 0 st_listed).
  vm_compute. reflexivity.
Defined.

(** A new fee rate is the one in force: after [updatePlatformFee] has
    returned for a rate, a purchase that returns next pays the
    administrator that rate, in thousandths of the payment rounded down. *)
Theorem new_fee_applies env f st u st1 tr env2 tok v u2 st2 tr2 :
  updatePlatformFee env f st = Ok (u, st1, tr) ->
  purchaseArtwork env2 tok v st1 = Ok (u2, st2, tr2) ->
  f <= 100 /\ (_owner st, v * f / 1000) ∈ payments tr2.
Proof.
  intros H1 H2. apply updatePlatformFee_Ok in H1.
  destruct H1 as (_ & Hf & -> & _). split; [exact Hf|].
  apply purchaseArtwork_Ok in H2. cbv zeta in H2.
  destruct H2 as (_ & _ & _ & _ & _ & _ & _ & _ & ->).
  unfold sale_trace. sproj.
  destruct (_ =? _); cbn; set_solver.
Qed.

Lemma new_fee_applies_witness :
  30 <= 100 /\
  (_owner st_listed, ARTWORK_PRICE * 30 / 1000)
    ∈ payments
        [Wrote slot_status; Wrote (slot_owner 1);
         Emitted (Transfer artist1 buyer1 1);
         Sent admin 30000000000000000; Sent artist1 970000000000000000;
         Wrote (slot_artwork 1);
         Emitted (ArtworkSold 1 artist1 buyer1 ARTWORK_PRICE);
         Wrote slot_status].
Proof.
  refine (new_fee_applies (as_ admin) 30 st_listed tt
            (set_platformFee 30 st_listed) [Wrote slot_platformFee]
            (as_ buyer1) 1 ARTWORK_PRICE tt
            (fst (transact (as_ buyer1) (PurchaseArtwork 1 ARTWORK_PRICE)
                    (set_platformFee 30 st_listed)))
            _ _ _).
  - vm_compute. reflexivity.
  - vm_compute. reflexivity.
Defined.
